(** * cache-api: the cache service over its item store

    A shallow embedding of [src/services/cacheService.js], of the
    [CacheItem] model of [src/models/cacheItem.js] and of the handlers of
    [src/routes/cache.js], and the properties proved about them.

    Conventions of the embedding:
    - a JavaScript [Error] is the record of its [message];
    - a [Date] is its time value, an integer number of milliseconds;
    - [JSON.stringify] and [JSON.parse] are the engine's: the model and the
      service are written over any type of values with a codec, and
      [JSON.json], with a printer and a parser of its own, is one such
      type;
    - a JavaScript number that is an argument of the service is an exact
      rational; the rounding of double arithmetic is not modelled, and a
      statement that depends on a product or a difference asks for it to be
      a Number ([is_double]), which the engine computes exactly, and for a
      time value to be in the range of [Date] ([valid_time]);
    - the table of [CacheItem] rows is a finite map from the primary key
      to the remaining columns;
    - [async] functions are run to completion one after the other, the
      outcome of each query of the store being taken from a schedule of
      injected failures. *)

From Stdlib Require Import ZArith QArith Qabs Qround Ascii String Decimal DecimalString DecimalPos DecimalZ.
From stdpp Require Import gmap strings list fin_maps.

Local Open Scope string_scope.
Local Open Scope Z_scope.

(** ** JSON values and the text codec of the [value] column *)

Module JSON.

(** Values that [JSON.stringify] and [JSON.parse] exchange. Numbers are
    the integers, printed in plain decimal notation, as JavaScript prints
    those below 1e21 in magnitude; a string is a sequence of characters of
    one byte; an object is the list of its own properties in enumeration
    order. *)
#[local] Unset Elimination Schemes.
Inductive json : Type :=
| JNull
| JBool (b : bool)
| JNum (n : Z)
| JStr (s : string)
| JArr (items : list json)
| JObj (props : list (string * json)).
#[local] Set Elimination Schemes.

(** Induction on a value, with the hypothesis for every item of an array
    and for every property of an object. *)
Definition json_ind (P : json -> Prop)
    (Hnull : P JNull) (Hbool : forall b, P (JBool b))
    (Hnum : forall n, P (JNum n)) (Hstr : forall s, P (JStr s))
    (Harr : forall items, Forall P items -> P (JArr items))
    (Hobj : forall props, Forall (fun kv => P kv.2) props -> P (JObj props))
  : forall v, P v :=
  fix go (v : json) : P v :=
    match v with
    | JNull => Hnull
    | JBool b => Hbool b
    | JNum n => Hnum n
    | JStr s => Hstr s
    | JArr items =>
        Harr items
          ((fix all (l : list json) : Forall P l :=
              match l with
              | [] => @List.Forall_nil _ P
              | x :: l' => @List.Forall_cons _ P x l' (go x) (all l')
              end) items)
    | JObj props =>
        Hobj props
          ((fix all (l : list (string * json)) : Forall (fun kv => P kv.2) l :=
              match l with
              | [] => @List.Forall_nil _ (fun kv => P kv.2)
              | kv :: l' =>
                  @List.Forall_cons _ (fun kv => P kv.2) kv l' (go kv.2) (all l')
              end) props)
    end.

(** *** [JSON.stringify] *)

Definition dquote : ascii := "034"%char.

Definition hex_digit (n : N) : ascii :=
  if (n <? 10)%N then ascii_of_N (48 + n) else ascii_of_N (87 + n).

(** One code unit of a quoted string (QuoteJSONString). *)
Definition escape_char (c : ascii) : string :=
  let n := N_of_ascii c in
  if (n =? 8)%N then "\b"
  else if (n =? 9)%N then "\t"
  else if (n =? 10)%N then "\n"
  else if (n =? 12)%N then "\f"
  else if (n =? 13)%N then "\r"
  else if (n =? 34)%N then String "\" (String dquote EmptyString)
  else if (n =? 92)%N then "\\"
  else if (n <? 32)%N then
    String "\" (String "u" (String "0" (String "0"
      (String (hex_digit (n / 16)) (String (hex_digit (n mod 16)) EmptyString)))))
  else String c EmptyString.

Fixpoint escape (s : string) : string :=
  match s with
  | EmptyString => EmptyString
  | String c s' => escape_char c +:+ escape s'
  end.

Definition QuoteJSONString (s : string) : string :=
  String dquote (escape s +:+ String dquote EmptyString).

(** The text of an integer, as Number::toString gives it. *)
Definition NumberToString (n : Z) : string :=
  NilZero.string_of_int (Z.to_int n).

Fixpoint stringify (v : json) : string :=
  match v with
  | JNull => "null"
  | JBool true => "true"
  | JBool false => "false"
  | JNum n => NumberToString n
  | JStr s => QuoteJSONString s
  | JArr items =>
      match items with
      | [] => "[]"
      | x :: rest =>
          "[" +:+ stringify x +:+
          (fix more (l : list json) : string :=
             match l with
             | [] => "]"
             | y :: l' => "," +:+ stringify y +:+ more l'
             end) rest
      end
  | JObj props =>
      match props with
      | [] => "{}"
      | (k, x) :: rest =>
          "{" +:+ QuoteJSONString k +:+ ":" +:+ stringify x +:+
          (fix more (l : list (string * json)) : string :=
             match l with
             | [] => "}"
             | (k', y) :: l' =>
                 "," +:+ QuoteJSONString k' +:+ ":" +:+ stringify y +:+ more l'
             end) rest
      end
  end.

(** The text after the first item of an array, and after the first property
    of an object. *)
Fixpoint items_tail (l : list json) : string :=
  match l with
  | [] => "]"
  | y :: l' => "," +:+ stringify y +:+ items_tail l'
  end.

Fixpoint props_tail (l : list (string * json)) : string :=
  match l with
  | [] => "}"
  | (k, y) :: l' =>
      "," +:+ QuoteJSONString k +:+ ":" +:+ stringify y +:+ props_tail l'
  end.

(** *** [JSON.parse] *)

Definition is_ws (c : ascii) : bool :=
  let n := N_of_ascii c in
  (n =? 32)%N || (n =? 9)%N || (n =? 10)%N || (n =? 13)%N.

Fixpoint skip_ws (s : string) : string :=
  match s with
  | String c s' => if is_ws c then skip_ws s' else s
  | EmptyString => s
  end.

Definition is_digit (c : ascii) : bool :=
  let n := N_of_ascii c in (48 <=? n)%N && (n <=? 57)%N.

Definition digit_cons (c : ascii) (d : uint) : uint :=
  match (N_of_ascii c - 48)%N with
  | 0%N => D0 d | 1%N => D1 d | 2%N => D2 d | 3%N => D3 d | 4%N => D4 d
  | 5%N => D5 d | 6%N => D6 d | 7%N => D7 d | 8%N => D8 d | _ => D9 d
  end.

(** The longest prefix of decimal digits, and what follows it. *)
Fixpoint scan_digits (s : string) : uint * string :=
  match s with
  | String c s' =>
      if is_digit c then
        let (d, r) := scan_digits s' in (digit_cons c d, r)
      else (Nil, s)
  | EmptyString => (Nil, s)
  end.

(** A digit sequence of the JSON grammar: [0], or one that does not start
    with [0]. *)
Definition int_digits (d : uint) : bool :=
  match d with
  | Nil => false
  | D0 Nil => true
  | D0 _ => false
  | _ => true
  end.

(** Where a fraction or an exponent would start: those number literals are
    not integers and are left unparsed. *)
Definition starts_frac_or_exp (s : string) : bool :=
  match s with
  | String c _ =>
      let n := N_of_ascii c in (n =? 46)%N || (n =? 101)%N || (n =? 69)%N
  | EmptyString => false
  end.

Definition parse_number (s : string) : option (json * string) :=
  let '(neg, body) :=
    match s with
    | String "-" s' => (true, s')
    | _ => (false, s)
    end in
  let (d, r) := scan_digits body in
  if int_digits d && negb (starts_frac_or_exp r) then
    Some (JNum (if neg then - Z.of_uint d else Z.of_uint d), r)
  else None.

Definition hex_value (c : ascii) : option N :=
  let n := N_of_ascii c in
  if (48 <=? n)%N && (n <=? 57)%N then Some (n - 48)%N
  else if (97 <=? n)%N && (n <=? 102)%N then Some (n - 87)%N
  else if (65 <=? n)%N && (n <=? 70)%N then Some (n - 55)%N
  else None.

(** The code unit of [\uXXXX]; code units above 255 are outside the strings
    of the embedding. *)
Definition unicode_escape (h1 h2 h3 h4 : ascii) : option ascii :=
  match hex_value h1, hex_value h2, hex_value h3, hex_value h4 with
  | Some a, Some b, Some c, Some d =>
      let n := (((a * 16 + b) * 16 + c) * 16 + d)%N in
      if (n <? 256)%N then Some (ascii_of_N n) else None
  | _, _, _, _ => None
  end.

Definition simple_escape (c : ascii) : option ascii :=
  let n := N_of_ascii c in
  if (n =? 34)%N then Some dquote
  else if (n =? 92)%N then Some "\"%char
  else if (n =? 47)%N then Some "/"%char
  else if (n =? 98)%N then Some "008"%char
  else if (n =? 102)%N then Some "012"%char
  else if (n =? 110)%N then Some "010"%char
  else if (n =? 114)%N then Some "013"%char
  else if (n =? 116)%N then Some "009"%char
  else None.

(** The characters of a string literal after its opening quote, up to and
    including the closing quote. *)
Fixpoint parse_chars (s : string) : option (string * string) :=
  match s with
  | EmptyString => None
  | String c s' =>
      if (N_of_ascii c =? 34)%N then Some (EmptyString, s')
      else if (N_of_ascii c =? 92)%N then
        match s' with
        | String e s'' =>
            if (N_of_ascii e =? 117)%N then
              match s'' with
              | String h1 (String h2 (String h3 (String h4 s4))) =>
                  match unicode_escape h1 h2 h3 h4 with
                  | Some u =>
                      match parse_chars s4 with
                      | Some (t, r) => Some (String u t, r)
                      | None => None
                      end
                  | None => None
                  end
              | _ => None
              end
            else
              match simple_escape e with
              | Some u =>
                  match parse_chars s'' with
                  | Some (t, r) => Some (String u t, r)
                  | None => None
                  end
              | None => None
              end
        | EmptyString => None
        end
      else if (N_of_ascii c <? 32)%N then None
      else
        match parse_chars s' with
        | Some (t, r) => Some (String c t, r)
        | None => None
        end
  end.

Fixpoint strip_prefix (lit s : string) : option string :=
  match lit with
  | EmptyString => Some s
  | String a lit' =>
      match s with
      | String b s' => if Ascii.eqb a b then strip_prefix lit' s' else None
      | EmptyString => None
      end
  end.

(** The rest of a literal name ([null], [true], [false]). *)
Definition expect (lit : string) (v : json) (s : string) : option (json * string) :=
  match strip_prefix lit s with
  | Some r => Some (v, r)
  | None => None
  end.

(** A key of an object and the colon after it. *)
Definition parse_key (s : string) : option (string * string) :=
  match skip_ws s with
  | String c s1 =>
      if (N_of_ascii c =? 34)%N then
        match parse_chars s1 with
        | Some (k, s2) =>
            match skip_ws s2 with
            | String c2 s3 =>
                if (N_of_ascii c2 =? 58)%N then Some (k, s3) else None
            | EmptyString => None
            end
        | None => None
        end
      else None
  | EmptyString => None
  end.

Fixpoint parse_value (fuel : nat) (s : string) : option (json * string) :=
  match fuel with
  | O => None
  | S fuel' =>
      match skip_ws s with
      | EmptyString => None
      | String c s1 =>
          let n := N_of_ascii c in
          if (n =? 110)%N then expect "ull" JNull s1
          else if (n =? 116)%N then expect "rue" (JBool true) s1
          else if (n =? 102)%N then expect "alse" (JBool false) s1
          else if (n =? 34)%N then
            match parse_chars s1 with
            | Some (t, r) => Some (JStr t, r)
            | None => None
            end
          else if (n =? 91)%N then
            match skip_ws s1 with
            | String c1 s2 =>
                if (N_of_ascii c1 =? 93)%N then Some (JArr [], s2)
                else
                  match parse_value fuel' s1 with
                  | Some (x, r) =>
                      match parse_items fuel' r with
                      | Some (l, r') => Some (JArr (x :: l), r')
                      | None => None
                      end
                  | None => None
                  end
            | EmptyString => None
            end
          else if (n =? 123)%N then
            match skip_ws s1 with
            | String c1 s2 =>
                if (N_of_ascii c1 =? 125)%N then Some (JObj [], s2)
                else
                  match parse_key s1 with
                  | Some (k, r0) =>
                      match parse_value fuel' r0 with
                      | Some (x, r) =>
                          match parse_props fuel' r with
                          | Some (l, r') => Some (JObj ((k, x) :: l), r')
                          | None => None
                          end
                      | None => None
                      end
                  | None => None
                  end
            | EmptyString => None
            end
          else parse_number (String c s1)
      end
  end
with parse_items (fuel : nat) (s : string) : option (list json * string) :=
  match fuel with
  | O => None
  | S fuel' =>
      match skip_ws s with
      | String c s1 =>
          if (N_of_ascii c =? 93)%N then Some ([], s1)
          else if (N_of_ascii c =? 44)%N then
            match parse_value fuel' s1 with
            | Some (x, r) =>
                match parse_items fuel' r with
                | Some (l, r') => Some (x :: l, r')
                | None => None
                end
            | None => None
            end
          else None
      | EmptyString => None
      end
  end
with parse_props (fuel : nat) (s : string) : option (list (string * json) * string) :=
  match fuel with
  | O => None
  | S fuel' =>
      match skip_ws s with
      | String c s1 =>
          if (N_of_ascii c =? 125)%N then Some ([], s1)
          else if (N_of_ascii c =? 44)%N then
            match parse_key s1 with
            | Some (k, r0) =>
                match parse_value fuel' r0 with
                | Some (x, r) =>
                    match parse_props fuel' r with
                    | Some (l, r') => Some ((k, x) :: l, r')
                    | None => None
                    end
                | None => None
                end
            | None => None
            end
          else None
      | EmptyString => None
      end
  end.

(** [JSON.parse]: one value, surrounded by white space only. [None] is the
    SyntaxError of the source; the text of a value is longer than the
    recursion of the parser is deep. *)
Definition parse (s : string) : option json :=
  match parse_value (S (String.length s)) s with
  | Some (v, r) =>
      match skip_ws r with
      | EmptyString => Some v
      | _ => None
      end
  | None => None
  end.

End JSON.

Import JSON.

(** ** Errors and completions *)

(** [new Error(message)]: the service throws and inspects plain [Error]
    objects only, and of those only the [message]. *)
Record Error : Type := { message : string }.

Inductive completion (A : Type) : Type :=
| Return (a : A)
| Throw (e : Error).
Arguments Return {A} a.
Arguments Throw {A} e.

(** ** The table of the [CacheItem] model *)

(** The columns besides the primary key: [value] is TEXT, written by the
    setter of the model, and [timestamp] a DATE. (The [createdAt] and
    [updatedAt] columns that [timestamps: true] adds are read by nothing and
    are left out.) *)
Record Row : Type := { rawValue : string; timestamp : Z }.

(** An instance of the model, as [findByPk] and [findOne] build it. *)
Record CacheItem : Type := { key : string; dataValues : Row }.

(** The database, and the outcomes of the queries to come: [Some e] makes
    the next query reject with [e], [None] lets it run; past the end of the
    schedule every query runs. *)
Record Store : Type := {
  rows : gmap string Row;
  failures : list (option Error)
}.

(** An [async] function run to completion: what it returns or throws, and
    the store it leaves. *)
Definition Async (A : Type) : Type := Store -> completion A * Store.

Definition ret {A} (a : A) : Async A := fun st => (Return a, st).

Definition throw {A} (e : Error) : Async A := fun st => (Throw e, st).

Definition bind {A B} (m : Async A) (k : A -> Async B) : Async B :=
  fun st =>
    match m st with
    | (Return a, st') => k a st'
    | (Throw e, st') => (Throw e, st')
    end.

(** [try { body } catch (error) { handler }] *)
Definition try_catch {A} (body : Async A) (handler : Error -> Async A) : Async A :=
  fun st =>
    match body st with
    | (Return a, st') => (Return a, st')
    | (Throw e, st') => handler e st'
    end.

#[global] Instance Async_ret : MRet Async := @ret.
#[global] Instance Async_bind : MBind Async := fun A B k m => bind m k.

(** [Promise.all] of two and of three promises: all are started in order,
    and the first rejection is the rejection of the whole. Where several
    reject, the first in the order of the array is taken here; the engine
    takes the first in time. *)
Definition Promise_all2 {A B} (p : Async A) (q : Async B) : Async (A * B) :=
  fun st =>
    let (a, st1) := p st in
    let (b, st2) := q st1 in
    match a, b with
    | Return x, Return y => (Return (x, y), st2)
    | Throw e, _ => (Throw e, st2)
    | _, Throw e => (Throw e, st2)
    end.

Definition Promise_all3 {A B C} (p : Async A) (q : Async B) (r : Async C)
  : Async (A * B * C) :=
  fun st =>
    let (a, st1) := p st in
    let (b, st2) := q st1 in
    let (c, st3) := r st2 in
    match a, b, c with
    | Return x, Return y, Return z => (Return (x, y, z), st3)
    | Throw e, _, _ => (Throw e, st3)
    | _, Throw e, _ => (Throw e, st3)
    | _, _, Throw e => (Throw e, st3)
    end.

(** One query against the database: rejected if the schedule says so and
    run on the table otherwise. *)
Definition query {A} (q : gmap string Row -> completion A * gmap string Row)
  : Async A :=
  fun st =>
    match failures st with
    | Some e :: rest => (Throw e, {| rows := rows st; failures := rest |})
    | ok =>
        let (a, t) := q (rows st) in
        (a, {| rows := t; failures := tail ok |})
    end.

(** *** The accessors of the [value] attribute (models/cacheItem.js) *)

(** The message of the SyntaxError of [JSON.parse] stands for whatever the
    engine says. *)
Definition SyntaxError : Error := {| message := "Unexpected token in JSON" |}.

(** [JSON.stringify], [JSON.parse] and [null] belong to the engine, not to
    the repository: the model and the service are written over any values
    [Value] that [JSON.stringify] turns into text, with what the engine does
    on them. [JSON_parse] is [None] where [JSON.parse] throws. *)
Class Codec (Value : Type) : Type := {
  JSON_stringify : Value -> string;
  JSON_parse : string -> option Value;
  null : Value
}.

(** The values of [JSON.json] with the printer and the parser above. *)
#[global] Instance JSON_codec : Codec json := {|
  JSON_stringify := JSON.stringify;
  JSON_parse := JSON.parse;
  null := JNull
|}.




Section Accessors.

Context {Value : Type} {codec : Codec Value}.

(** [get() { return JSON.parse(this.getDataValue('value')) }] *)
Definition CacheItem_value_get (item : CacheItem) : Async Value :=
  match JSON_parse (rawValue (dataValues item)) with
  | Some v => ret v
  | None => throw SyntaxError
  end.

(** [set(value) { this.setDataValue('value', JSON.stringify(value)) }] *)
Definition CacheItem_value_set (v : Value) : string := JSON_stringify v.

End Accessors.

(** *** The queries of the model that the service issues *)

Module CacheItemModel.

(** [CacheItem.count()] *)
Definition count : Async Z :=
  query (fun t => (Return (Z.of_nat (size t)), t)).

(** [CacheItem.count({ where: { key } })] *)
Definition count_where_key (k : string) : Async Z :=
  query (fun t => (Return (match t !! k with Some _ => 1 | None => 0 end), t)).

(** [CacheItem.findByPk(key)] *)
Definition findByPk (k : string) : Async (option CacheItem) :=
  query (fun t =>
    (Return (match t !! k with
             | Some r => Some {| key := k; dataValues := r |}
             | None => None
             end), t)).

Section Writes.

Context {Value : Type} {codec : Codec Value}.

(** [item.update({ value, timestamp })]: the row of the primary key of the
    instance is rewritten, through the setter of [value]. *)
Definition update (item : CacheItem) (v : Value) (ts : Z) : Async unit :=
  query (fun t =>
    (Return tt,
     alter (fun _ => {| rawValue := CacheItem_value_set v; timestamp := ts |})
           (key item) t)).

(** The message Sequelize gives to a violated unique constraint. *)
Definition UniqueConstraintError : Error := {| message := "Validation error" |}.

(** [CacheItem.create({ key, value, timestamp })]: an INSERT, which the
    primary key refuses for a key that has a row. *)
Definition create (k : string) (v : Value) (ts : Z) : Async unit :=
  query (fun t =>
    match t !! k with
    | Some _ => (Throw UniqueConstraintError, t)
    | None =>
        (Return tt,
         <[k := {| rawValue := CacheItem_value_set v; timestamp := ts |}]> t)
    end).

End Writes.

(** [CacheItem.destroy({ where: { key } })] *)
Definition destroy_where_key (k : string) : Async Z :=
  query (fun t => (Return (match t !! k with Some _ => 1 | None => 0 end), delete k t)).

(** [CacheItem.destroy({ where: {} })] *)
Definition destroy_all : Async Z :=
  query (fun t => (Return (Z.of_nat (size t)), ∅)).

(** [CacheItem.destroy({ where: { timestamp: { [Op.lt]: cutoff } } })] *)
Definition destroy_where_timestamp_lt (cutoff : Z) : Async Z :=
  query (fun t =>
    (Return (Z.of_nat
               (size (filter (fun kr : string * Row => timestamp kr.2 < cutoff) t))),
     filter (fun kr : string * Row => ¬ timestamp kr.2 < cutoff) t)).

(** The first row of a listing by [timestamp]: [before a b] says that [a]
    sorts strictly before [b]. *)
Definition first_by (before : Z -> Z -> bool) (l : list (string * Row))
  : option CacheItem :=
  foldr (fun kr best =>
           match best with
           | Some b =>
               if before (timestamp kr.2) (timestamp (dataValues b))
               then Some {| key := kr.1; dataValues := kr.2 |}
               else Some b
           | None => Some {| key := kr.1; dataValues := kr.2 |}
           end) None l.

(** [CacheItem.findOne({ order: [['timestamp', 'ASC']] })] *)
Definition findOne_order_timestamp_ASC : Async (option CacheItem) :=
  query (fun t => (Return (first_by Z.ltb (map_to_list t)), t)).

(** [CacheItem.findOne({ order: [['timestamp', 'DESC']] })] *)
Definition findOne_order_timestamp_DESC : Async (option CacheItem) :=
  query (fun t => (Return (first_by Z.gtb (map_to_list t)), t)).

End CacheItemModel.

(** ** The cache service (services/cacheService.js) *)

Record CacheService : Type := { maxSize : Z }.

(** [this.maxSize = parseInt(process.env.MAX_CACHE_SIZE) || 10], from what
    [parseInt] returns: an integer, or [None] for NaN. *)
Definition constructor (parsed : option Z) : CacheService :=
  match parsed with
  | None | Some 0 => {| maxSize := 10 |}
  | Some n => {| maxSize := n |}
  end.

(** [!key] for a key that is a string, or [None] when the argument is
    [undefined] or [null]: the key to go on with, if there is one. *)
Definition truthy (key : option string) : option string :=
  match key with
  | Some EmptyString | None => None
  | Some k => Some k
  end.

(** [!item] for what [findByPk] resolves to: an instance, or [null]. *)
Definition is_null {A} (item : option A) : bool :=
  match item with
  | Some _ => false
  | None => true
  end.

Definition Cache_is_full : Error := {| message := "Cache is full" |}.

Record Stats : Type := {
  totalItems : Z;
  oldestItemTimestamp : option Z;
  newestItemTimestamp : option Z;
  stats_maxSize : Z;
  remainingSpace : Z
}.

(** [new Date(tv)] for a number [tv]: the constructor keeps [TimeClip(tv)],
    which ends in [ToIntegerOrInfinity], so the fraction of a millisecond is
    dropped (towards zero) and [new Date(882.8125).getTime()] is [882]. This
    is the time value for a [tv] within the range of [Date] (8.64e15 ms on
    either side of the epoch); beyond it the date is invalid, which is not
    modelled. *)
Definition new_Date (tv : Q) : Z := Z.quot (Qnum tv) (Z.pos (Qden tv)).

Module cacheService.

Section Service.

Context {Value : Type} {codec : Codec Value}.

Variable this : CacheService.

(** [async set(key, value)]; [now] is what [new Date()] gives; an argument
    that is [undefined] is [None]. *)
Definition set (key : option string) (value : option Value) (now : Z) : Async bool :=
  try_catch
    (match truthy key with
     | None => throw {| message := "Key is required" |}
     | Some k =>
         match value with
         | None => throw {| message := "Value is required" |}
         | Some v =>
             '(count, existingItem) ←
                Promise_all2 CacheItemModel.count (CacheItemModel.findByPk k) ;
             if (count >=? maxSize this) && is_null existingItem
             then throw Cache_is_full
             else
               _ ← match existingItem with
                   | Some item => CacheItemModel.update item v now
                   | None => CacheItemModel.create k v now
                   end ;
               ret true
         end
     end)
    (fun error =>
       if String.eqb (message error) "Cache is full" then throw error
       else throw {| message := "Failed to set cache value: " +:+ message error |}).

(** [async get(key)]: the value, or [null] if there is no item. *)
Definition get (key : option string) : Async Value :=
  try_catch
    (match truthy key with
     | None => throw {| message := "Key is required" |}
     | Some k =>
         item ← CacheItemModel.findByPk k ;
         match item with
         | Some i => CacheItem_value_get i
         | None => ret null
         end
     end)
    (fun error =>
       throw {| message := "Failed to get cache value: " +:+ message error |}).

(** [async delete(key)] *)
Definition delete (key : option string) : Async bool :=
  try_catch
    (match truthy key with
     | None => throw {| message := "Key is required" |}
     | Some k =>
         deleted ← CacheItemModel.destroy_where_key k ;
         ret (deleted >? 0)
     end)
    (fun error =>
       throw {| message := "Failed to delete cache value: " +:+ message error |}).

(** [async size()] *)
Definition size : Async Z :=
  try_catch CacheItemModel.count
    (fun error =>
       throw {| message := "Failed to get cache size: " +:+ message error |}).

(** [async clear()] *)
Definition clear : Async unit :=
  try_catch
    (_ ← CacheItemModel.destroy_all ; ret tt)
    (fun error =>
       throw {| message := "Failed to clear cache: " +:+ message error |}).

(** [oldest?.timestamp || null]: a [Date] object is never falsy. *)
Definition timestamp_or_null (item : option CacheItem) : option Z :=
  match item with
  | Some i => Some (timestamp (dataValues i))
  | None => None
  end.

(** [async getStats()] *)
Definition getStats : Async Stats :=
  try_catch
    ('(total, oldest, newest) ←
       Promise_all3 CacheItemModel.count
                    CacheItemModel.findOne_order_timestamp_ASC
                    CacheItemModel.findOne_order_timestamp_DESC ;
     ret {| totalItems := total;
            oldestItemTimestamp := timestamp_or_null oldest;
            newestItemTimestamp := timestamp_or_null newest;
            stats_maxSize := maxSize this;
            remainingSpace := Z.max 0 (maxSize this - total) |})
    (fun error =>
       throw {| message := "Failed to get cache stats: " +:+ message error |}).

(** [async cleanupOldEntries(maxAgeMinutes = 60)]; [now] is what
    [Date.now()] gives. *)
Definition cleanupOldEntries (maxAgeMinutes : option Q) (now : Z) : Async Z :=
  let maxAgeMinutes := default 60%Q maxAgeMinutes in
  try_catch
    (if Qle_bool maxAgeMinutes 0 then throw {| message := "Max age must be positive" |}
     else
       let cutoffTime := new_Date (inject_Z now - maxAgeMinutes * 60000)%Q in
       deleted ← CacheItemModel.destroy_where_timestamp_lt cutoffTime ;
       ret deleted)
    (fun error =>
       throw {| message := "Failed to cleanup old entries: " +:+ message error |}).

(** [async has(key)] *)
Definition has (key : option string) : Async bool :=
  try_catch
    (match truthy key with
     | None => throw {| message := "Key is required" |}
     | Some k =>
         count ← CacheItemModel.count_where_key k ;
         ret (count >? 0)
     end)
    (fun error =>
       throw {| message := "Failed to check key existence: " +:+ message error |}).

End Service.

(** *** Sequences of calls *)

Section Calls.

Variable this : CacheService.

Inductive operation : Type :=
| OpSet (key : option string) (value : option json) (now : Z)
| OpGet (key : option string)
| OpDelete (key : option string)
| OpHas (key : option string)
| OpSize
| OpClear
| OpCleanupOldEntries (maxAgeMinutes : option Q) (now : Z)
| OpGetStats.

(** The store that a call leaves, whatever it returned or threw. *)
Definition perform (op : operation) (st : Store) : Store :=
  match op with
  | OpSet k v now => (set this k v now st).2
  | OpGet k => (get (Value := json) k st).2
  | OpDelete k => (delete k st).2
  | OpHas k => (has k st).2
  | OpSize => (size st).2
  | OpClear => (clear st).2
  | OpCleanupOldEntries m now => (cleanupOldEntries m now st).2
  | OpGetStats => (getStats this st).2
  end.

(** The stores after each call of a sequence, one call after the other. *)
Fixpoint history (ops : list operation) (st : Store) : list Store :=
  match ops with
  | [] => []
  | op :: ops' => let st' := perform op st in st' :: history ops' st'
  end.

End Calls.

End cacheService.

(** A store whose queries all succeed. *)
Definition healthy (t : gmap string Row) : Store :=
  {| rows := t; failures := [] |}.
#[global] Arguments healthy : simpl never.

(** ** The routes (routes/cache.js) *)

Module cacheRouter.

(** The [data] of a reply. *)
Inductive Data : Type :=
| DataKey (key : string)
| DataStats (stats : Stats)
| DataDeletedCount (deletedCount : Z)
| DataKeyValue (key : string) (value : json).

(** The object a handler sends: [{ error, message }], or
    [{ status: 'success', message, data }] with the fields it has. *)
Inductive Body : Type :=
| Failure (error : string) (text : string)
| Success (text : option string) (data : option Data).

(** What a handler ends in: [res.status(status).json(body)] ([res.json] is
    status 200), or [next(error)]. *)
Inductive Reply : Type :=
| Json (status : Z) (body : Body)
| Next (error : Error).

Section Routes.

(** The service the router imports. *)
Variable this : CacheService.

(** [router.post('/')], for the [key] and [value] of the body of the
    request. *)
Definition post_root (key : option string) (value : option json) (now : Z)
  : Async Reply :=
  try_catch
    (match truthy key, value with
     | Some k, Some _ =>
         _ ← cacheService.set this key value now ;
         ret (Json 201 (Success (Some "Stored successfully") (Some (DataKey k))))
     | _, _ =>
         ret (Json 400 (Failure "Validation Error" "Key and value are required"))
     end)
    (fun error =>
       if String.eqb (message error) "Cache is full"
       then ret (Json 507 (Failure "Storage Error" "Cache is full"))
       else ret (Next error)).

(** [router.get('/stats')] *)
Definition get_stats : Async Reply :=
  try_catch
    (stats ← cacheService.getStats this ;
     ret (Json 200 (Success None (Some (DataStats stats)))))
    (fun error => ret (Next error)).

(** [router.post('/cleanup')], for the [maxAgeMinutes] of the body, 60 when
    it has none. *)
Definition post_cleanup (maxAgeMinutes : option Q) (now : Z) : Async Reply :=
  try_catch
    (let maxAgeMinutes := default 60%Q maxAgeMinutes in
     deletedCount ← cacheService.cleanupOldEntries (Some maxAgeMinutes) now ;
     ret (Json 200 (Success (Some "Cleanup completed")
                            (Some (DataDeletedCount deletedCount)))))
    (fun error => ret (Next error)).

(** [router.get('/:key')] *)
Definition get_key (key : option string) : Async Reply :=
  try_catch
    (match truthy key with
     | None => ret (Json 400 (Failure "Validation Error" "Key is required"))
     | Some k =>
         value ← cacheService.get key ;
         match value with
         | JNull => ret (Json 404 (Failure "Not Found" "Key not found"))
         | _ => ret (Json 200 (Success None (Some (DataKeyValue k value))))
         end
     end)
    (fun error => ret (Next error)).

(** [router.delete('/:key')] *)
Definition delete_key (key : option string) : Async Reply :=
  try_catch
    (match truthy key with
     | None => ret (Json 400 (Failure "Validation Error" "Key is required"))
     | Some k =>
         deleted ← cacheService.delete key ;
         if negb deleted
         then ret (Json 404 (Failure "Not Found" "Key not found"))
         else ret (Json 200 (Success (Some "Deleted successfully")
                                     (Some (DataKey k))))
     end)
    (fun error => ret (Next error)).

(** [router.delete('/')] *)
Definition delete_root : Async Reply :=
  try_catch
    (_ ← cacheService.clear ;
     ret (Json 200 (Success (Some "Cache cleared successfully") None)))
    (fun error => ret (Next error)).

End Routes.

End cacheRouter.

(** ** Notions used in the statements *)

(** What the [catch] of [set] throws for an error caught. *)
Definition set_rethrown (e : Error) : Error :=
  if String.eqb (message e) "Cache is full" then e
  else {| message := "Failed to set cache value: " +:+ message e |}.

(** The range of the time values of [Date]: 8.64e15 ms on either side of
    the epoch; [new Date(tv)] is an invalid date outside it. *)
Definition MAX_TIME : Z := 8640000000000000.


(** The rationals that are Number values: [mant * 2 ^ e] with a mantissa of
    53 bits and an exponent in the range of the doubles. The product and the
    difference of two Numbers are exact when they are Numbers again. *)
Definition is_double (x : Q) : Prop :=
  ∃ mant e : Z, Z.abs mant < 2 ^ 53 ∧ -1074 ≤ e ≤ 971
                ∧ (x == inject_Z mant * 2 ^ e)%Q.

(** What may follow a value inside a text: nothing, a comma, or a closing
    bracket or brace. *)
Definition ends_value (rest : string) : bool :=
  match rest with
  | EmptyString => true
  | String c _ =>
      let n := N_of_ascii c in (n =? 44)%N || (n =? 93)%N || (n =? 125)%N
  end.

(** A character that starts a value: not white space, and not a closing
    bracket. *)
Definition starts_value (c : ascii) : bool :=
  negb (JSON.is_ws c) && negb (N_of_ascii c =? 93)%N.

(** The property of the round trip, for a value inside a text. *)
Definition parses_back (v : json) : Prop :=
  ∀ (fuel : nat) (rest : string),
    ends_value rest = true →
    (String.length (JSON.stringify v) ≤ fuel)%nat →
    JSON.parse_value fuel (JSON.stringify v +:+ rest) = Some (v, rest).

(** * Properties *)

(** ** The monad and the queries on a store without failures *)

Lemma truthy_nonempty (k : string) :
  k ≠ EmptyString → truthy (Some k) = Some k.
Proof. by destruct k. Qed.

Lemma query_healthy {A} (q : gmap string Row → completion A * gmap string Row)
    (t : gmap string Row) :
  query q (healthy t) = ((q t).1, healthy (q t).2).
Proof. unfold query, healthy; simpl. by destruct (q t). Qed.

Lemma rows_healthy (t : gmap string Row) : rows (healthy t) = t.
Proof. done. Qed.

Ltac unfold_service :=
  unfold cacheService.set, cacheService.get, cacheService.delete,
    cacheService.size, cacheService.clear, cacheService.getStats,
    cacheService.cleanupOldEntries, cacheService.has,
    try_catch, mbind, Async_bind, bind, Promise_all2, Promise_all3,
    ret, throw,
    CacheItemModel.count, CacheItemModel.count_where_key,
    CacheItemModel.findByPk, CacheItemModel.update, CacheItemModel.create,
    CacheItemModel.destroy_where_key, CacheItemModel.destroy_all,
    CacheItemModel.destroy_where_timestamp_lt,
    CacheItemModel.findOne_order_timestamp_ASC,
    CacheItemModel.findOne_order_timestamp_DESC.

Ltac run_healthy :=
  unfold_service; repeat (rewrite ?query_healthy, ?rows_healthy; simpl).

(** The codec of [JSON.json], unfolded to its printer and its parser. *)
Ltac json_codec :=
  cbn [JSON_stringify JSON_parse null JSON_codec] in *.

(** ** Admission *)

(** What [set] does, with valid arguments, on a store whose queries
    succeed. *)
Lemma set_healthy {Value : Type} {codec : Codec Value} (this : CacheService)
    (k : string) (v : Value) (now : Z) (t : gmap string Row) :
  k ≠ EmptyString →
  cacheService.set this (Some k) (Some v) now (healthy t)
  = match t !! k with
    | None =>
        if Z.of_nat (size t) >=? maxSize this
        then (Throw Cache_is_full, healthy t)
        else (Return true,
              healthy (<[k := {| rawValue := JSON_stringify v; timestamp := now |}]> t))
    | Some _ =>
        (Return true,
         healthy (<[k := {| rawValue := JSON_stringify v; timestamp := now |}]> t))
    end.
Proof.
  intros Hk. unfold cacheService.set. rewrite truthy_nonempty by done.
  run_healthy. destruct (t !! k) as [r|] eqn:Hr; simpl.
  - rewrite andb_false_r. run_healthy.
    unfold healthy, CacheItem_value_set. do 2 f_equal.
    apply map_eq; intros j.
    rewrite lookup_alter, lookup_insert. case_decide; subst; by rewrite ?Hr.
  - rewrite andb_true_r.
    destruct (Z.of_nat (size t) >=? maxSize this); [done |].
    run_healthy. by rewrite Hr.
Qed.

(** At capacity, a key without a row is refused before anything is
    written. *)
Lemma set_refused_healthy (this : CacheService) (k : string) (v : json)
    (now : Z) (t : gmap string Row) :
  k ≠ EmptyString →
  t !! k = None →
  maxSize this ≤ Z.of_nat (size t) →
  cacheService.set this (Some k) (Some v) now (healthy t)
  = (Throw Cache_is_full, healthy t).
Proof.
  intros Hk Hnone Hfull. rewrite set_healthy, Hnone by done.
  destruct (Z.geb_spec (Z.of_nat (size t)) (maxSize this)); [done | lia].
Qed.

(** C1: a [set] of a non-empty key without a row, on a store that holds
    [maxSize] items or more, throws the capacity error ([Cache is full]) and
    leaves the store as it was: the same rows, hence the same [size()]; the
    rows are left alone whatever the queries do. *)
Theorem set_new_key_at_capacity (this : CacheService) (k : string) (v : json)
    (now : Z) (t : gmap string Row) :
  k ≠ EmptyString →
  t !! k = None →
  maxSize this ≤ Z.of_nat (size t) →
  cacheService.set this (Some k) (Some v) now (healthy t)
    = (Throw Cache_is_full, healthy t)
  ∧ (cacheService.size (cacheService.set this (Some k) (Some v) now (healthy t)).2).1
    = (cacheService.size (healthy t)).1
  ∧ ∀ st, rows st = t →
      rows (cacheService.set this (Some k) (Some v) now st).2 = t.
Proof.
  intros Hk Hnone Hfull.
  pose proof (set_refused_healthy this k v now t Hk Hnone Hfull) as Hset.
  split; [done | split; [by rewrite Hset |]].
  intros [t' fs] Ht; simpl in Ht; subst t'.
  unfold cacheService.set. rewrite truthy_nonempty by done.
  unfold_service. unfold query; simpl.
  destruct fs as [|[e|] [|[e'|] fs]]; simpl; rewrite ?Hnone; simpl;
    repeat match goal with
    | |- context [Z.geb ?a ?b] => destruct (Z.geb_spec a b); [| lia]
    | |- context [String.eqb ?a ?b] => destruct (String.eqb a b)
    end; simpl; try done.
Qed.

(** C3: a [set] of a key that has a row succeeds whatever the number of
    items, at capacity too: the row gets the text of the new value and the
    new timestamp, every other row is as before, and [size()] keeps its
    value. *)
Theorem set_existing_key_updates (this : CacheService) (k : string) (v : json)
    (now : Z) (t : gmap string Row) :
  k ≠ EmptyString →
  is_Some (t !! k) →
  let st' := (cacheService.set this (Some k) (Some v) now (healthy t)).2 in
  (cacheService.set this (Some k) (Some v) now (healthy t)).1 = Return true
  ∧ rows st' !! k = Some {| rawValue := JSON.stringify v; timestamp := now |}
  ∧ (∀ k', k' ≠ k → rows st' !! k' = t !! k')
  ∧ (cacheService.size st').1 = (cacheService.size (healthy t)).1.
Proof.
  intros Hk [r Hr] st'.
  assert (Hset : cacheService.set this (Some k) (Some v) now (healthy t)
    = (Return true,
       healthy (<[k := {| rawValue := JSON.stringify v; timestamp := now |}]> t))).
  { by rewrite set_healthy, Hr. }
  subst st'. rewrite Hset; simpl. repeat split.
  - by rewrite lookup_insert_eq.
  - intros k' Hne. by rewrite lookup_insert_ne.
  - run_healthy. by rewrite map_size_insert_Some.
Qed.

(** ** Deletion *)

(** C8: [delete] of a non-empty key removes the row of the key and nothing
    else, returns [true] exactly when there was a row, does not throw when
    there was none, and in both cases [has] of the key is [false]
    afterwards. *)
Theorem delete_removes_and_reports (k : string) (t : gmap string Row) :
  k ≠ EmptyString →
  let st' := (cacheService.delete (Some k) (healthy t)).2 in
  (cacheService.delete (Some k) (healthy t)).1
    = Return (bool_decide (is_Some (t !! k)))
  ∧ rows st' !! k = None
  ∧ (∀ k', k' ≠ k → rows st' !! k' = t !! k')
  ∧ (t !! k = None → st' = healthy t)
  ∧ (cacheService.has (Some k) st').1 = Return false.
Proof.
  intros Hk st'.
  assert (Hdel : cacheService.delete (Some k) (healthy t)
    = (Return (bool_decide (is_Some (t !! k))), healthy (base.delete k t))).
  { unfold cacheService.delete. rewrite truthy_nonempty by done.
    run_healthy. by destruct (t !! k). }
  subst st'. rewrite Hdel; simpl. repeat split.
  - by rewrite lookup_delete_eq.
  - intros k' Hne. by rewrite lookup_delete_ne.
  - intros Hnone. by rewrite delete_id.
  - unfold cacheService.has. rewrite truthy_nonempty by done.
    run_healthy. by rewrite lookup_delete_eq.
Qed.

(** ** A stored [null] *)

(** C10: after a successful [set] of a non-empty key to [null], [has] of the
    key is [true] and [get] of the key is [null], which is also what [get]
    returns for a key without a row. *)
Theorem null_value_has_but_get_null (this : CacheService) (k : string)
    (now : Z) (t : gmap string Row) :
  k ≠ EmptyString →
  (cacheService.set this (Some k) (Some JNull) now (healthy t)).1 = Return true →
  let st' := (cacheService.set this (Some k) (Some JNull) now (healthy t)).2 in
  (cacheService.has (Some k) st').1 = Return true
  ∧ (cacheService.get (Some k) st').1 = Return JNull
  ∧ ∀ (k' : string) (t' : gmap string Row),
      k' ≠ EmptyString → t' !! k' = None →
      (cacheService.get (Some k') (healthy t')).1 = Return JNull.
Proof.
  intros Hk Hok st'.
  assert (Hst : st' = healthy (<[k := {| rawValue := "null"; timestamp := now |}]> t)).
  { subst st'. revert Hok. rewrite set_healthy by done.
    destruct (t !! k); [done |].
    by destruct (Z.of_nat (size t) >=? maxSize this). }
  rewrite Hst. repeat split.
  - unfold cacheService.has. rewrite truthy_nonempty by done.
    run_healthy. by rewrite lookup_insert_eq.
  - unfold cacheService.get. rewrite truthy_nonempty by done.
    run_healthy. by rewrite lookup_insert_eq.
  - intros k' t' Hk' Hnone. unfold cacheService.get.
    rewrite truthy_nonempty by done. run_healthy. by rewrite Hnone.
Qed.

(** ** Statistics *)

Section FirstBy.

(** A listing order: [before] decides a total preorder [R] on timestamps. *)
Variable before : Z → Z → bool.
Variable R : Z → Z → Prop.
Hypothesis before_true : ∀ a b, before a b = true → R a b.
Hypothesis before_false : ∀ a b, before a b = false → R b a.
Hypothesis R_trans : ∀ a b c, R a b → R b c → R a c.

Lemma first_by_nil_iff (l : list (string * Row)) :
  CacheItemModel.first_by before l = None ↔ l = [].
Proof.
  destruct l as [|kr l]; simpl; [done |].
  split; [| done].
  destruct (CacheItemModel.first_by before l) as [b|]; [| done].
  by destruct (before _ _).
Qed.

Lemma first_by_refl (a : Z) : R a a.
Proof. destruct (before a a) eqn:E; eauto. Qed.

Lemma first_by_extreme (l : list (string * Row)) (b : CacheItem) :
  CacheItemModel.first_by before l = Some b →
  (key b, dataValues b) ∈ l
  ∧ ∀ kr, kr ∈ l → R (timestamp (dataValues b)) (timestamp kr.2).
Proof.
  revert b. induction l as [|[k r] l IH]; intros b; simpl; [done |].
  destruct (CacheItemModel.first_by before l) as [b'|] eqn:Hl.
  - destruct (IH b' eq_refl) as [Hin Hall].
    destruct (before (timestamp r) (timestamp (dataValues b'))) eqn:Hb;
      intros [= <-]; simpl.
    + split; [left |]. intros kr [->|Hkr]%elem_of_cons; simpl.
      * apply first_by_refl.
      * eauto.
    + split; [by right |]. intros kr [->|Hkr]%elem_of_cons; simpl; eauto.
  - apply first_by_nil_iff in Hl as ->. intros [= <-]; simpl.
    split; [left |]. intros kr [->|Hkr]%elem_of_cons; simpl.
    + apply first_by_refl.
    + by apply elem_of_nil in Hkr.
Qed.

End FirstBy.

Lemma first_by_ASC (t : gmap string Row) :
  match CacheItemModel.first_by Z.ltb (map_to_list t) with
  | None => t = ∅
  | Some b =>
      t !! key b = Some (dataValues b)
      ∧ ∀ k r, t !! k = Some r → timestamp (dataValues b) ≤ timestamp r
  end.
Proof.
  destruct (CacheItemModel.first_by Z.ltb (map_to_list t)) as [b|] eqn:Hb.
  - apply (first_by_extreme Z.ltb Z.le) in Hb as [Hin Hall]; try (intros; lia).
    split; [by apply elem_of_map_to_list in Hin |].
    intros k r Hr. apply (Hall (k, r)). by apply elem_of_map_to_list.
  - apply first_by_nil_iff in Hb. by apply map_to_list_empty_iff.
Qed.

Lemma first_by_DESC (t : gmap string Row) :
  match CacheItemModel.first_by Z.gtb (map_to_list t) with
  | None => t = ∅
  | Some b =>
      t !! key b = Some (dataValues b)
      ∧ ∀ k r, t !! k = Some r → timestamp r ≤ timestamp (dataValues b)
  end.
Proof.
  destruct (CacheItemModel.first_by Z.gtb (map_to_list t)) as [b|] eqn:Hb.
  - apply (first_by_extreme Z.gtb Z.ge) in Hb as [Hin Hall]; try (intros; lia).
    split; [by apply elem_of_map_to_list in Hin |].
    intros k r Hr. apply Z.ge_le, (Hall (k, r)). by apply elem_of_map_to_list.
  - apply first_by_nil_iff in Hb. by apply map_to_list_empty_iff.
Qed.

(** What [getStats] returns on a store whose queries succeed. *)
Lemma getStats_healthy (this : CacheService) (t : gmap string Row) :
  cacheService.getStats this (healthy t)
  = (Return
       {| totalItems := Z.of_nat (size t);
          oldestItemTimestamp :=
            cacheService.timestamp_or_null
              (CacheItemModel.first_by Z.ltb (map_to_list t));
          newestItemTimestamp :=
            cacheService.timestamp_or_null
              (CacheItemModel.first_by Z.gtb (map_to_list t));
          stats_maxSize := maxSize this;
          remainingSpace := Z.max 0 (maxSize this - Z.of_nat (size t)) |},
     healthy t).
Proof. by run_healthy. Qed.

(** C9: [getStats] reports the number of items, the least and the greatest
    timestamp of the rows (nothing for either when there is no row), the
    configured [maxSize], and [remainingSpace = max(0, maxSize - totalItems)],
    which is never negative, also when the store holds more than [maxSize]
    items. *)
Theorem getStats_reports (this : CacheService) (t : gmap string Row) :
  ∃ s : Stats,
    cacheService.getStats this (healthy t) = (Return s, healthy t)
    ∧ totalItems s = Z.of_nat (size t)
    ∧ stats_maxSize s = maxSize this
    ∧ remainingSpace s = Z.max 0 (maxSize this - totalItems s)
    ∧ 0 ≤ remainingSpace s
    ∧ (t = ∅ → oldestItemTimestamp s = None ∧ newestItemTimestamp s = None)
    ∧ (t ≠ ∅ → ∃ lo hi : Z,
         oldestItemTimestamp s = Some lo ∧ newestItemTimestamp s = Some hi
         ∧ (∃ k r, t !! k = Some r ∧ timestamp r = lo)
         ∧ (∃ k r, t !! k = Some r ∧ timestamp r = hi)
         ∧ ∀ k r, t !! k = Some r → lo ≤ timestamp r ≤ hi).
Proof.
  eexists. split; [apply getStats_healthy |]. simpl.
  split; [done |]. split; [done |]. split; [done |]. split; [lia |].
  pose proof (first_by_ASC t) as Hlo. pose proof (first_by_DESC t) as Hhi.
  split.
  - intros ->. by rewrite map_to_list_empty.
  - intros Hne.
    destruct (CacheItemModel.first_by Z.ltb (map_to_list t)) as [lo|]; [| done].
    destruct (CacheItemModel.first_by Z.gtb (map_to_list t)) as [hi|]; [| done].
    destruct Hlo as [Hlo1 Hlo2], Hhi as [Hhi1 Hhi2]. simpl.
    exists (timestamp (dataValues lo)), (timestamp (dataValues hi)).
    repeat split; eauto.
Qed.

(** ** Cleanup by age *)

(** [new Date] of a whole number of milliseconds is that number. *)
Lemma new_Date_whole (tv : Q) (c : Z) : (tv == inject_Z c)%Q → new_Date tv = c.
Proof.
  unfold Qeq, new_Date; simpl. intros H. rewrite Z.mul_1_r in H.
  rewrite H. by apply Z.quot_mul.
Qed.

(** For a time value after the epoch, the [Date] is the last whole
    millisecond that is not after it. *)
Lemma new_Date_floor (tv : Q) :
  (0 <= tv)%Q →
  (inject_Z (new_Date tv) <= tv)%Q ∧ (tv < inject_Z (new_Date tv + 1))%Q.
Proof.
  destruct tv as [n d]. unfold Qle, Qlt, new_Date; simpl.
  rewrite !Z.mul_1_r. intros Hn.
  rewrite Z.quot_div_nonneg by lia.
  pose proof (Z.mul_div_le n (Z.pos d)).
  pose proof (Z.mul_succ_div_gt n (Z.pos d)). lia.
Qed.


(** What [cleanupOldEntries] does on a store whose queries succeed. *)
Lemma cleanupOldEntries_healthy (m : Q) (now : Z) (t : gmap string Row) :
  cacheService.cleanupOldEntries (Some m) now (healthy t)
  = if Qle_bool m 0
    then (Throw {| message := "Failed to cleanup old entries: Max age must be positive" |},
          healthy t)
    else
      let cutoffTime := new_Date (inject_Z now - m * 60000)%Q in
      (Return (Z.of_nat
                 (size (filter (λ kr : string * Row, timestamp kr.2 < cutoffTime) t))),
       healthy (filter (λ kr : string * Row, ¬ timestamp kr.2 < cutoffTime) t)).
Proof.
  unfold cacheService.cleanupOldEntries; simpl.
  destruct (Qle_bool m 0); by run_healthy.
Qed.



(** ** The capacity invariant *)

(** A query either rejects and leaves the table, or runs on it; either way
    it uses up one entry of the schedule. *)
Lemma query_spec {A} (q : gmap string Row → completion A * gmap string Row)
    (st : Store) :
  (∃ e, query q st
        = (Throw e, {| rows := rows st; failures := tail (failures st) |}))
  ∨ query q st
    = ((q (rows st)).1,
       {| rows := (q (rows st)).2; failures := tail (failures st) |}).
Proof.
  unfold query. destruct (failures st) as [|[e|] rest]; simpl;
    destruct (q (rows st)); eauto.
Qed.

Ltac step_query :=
  match goal with
  | |- context [query ?q ?s] =>
      let e := fresh "e" in
      destruct (query_spec q s) as [[e ->] | ->]; simpl
  end.

Lemma size_alter (f : Row → Row) (k : string) (t : gmap string Row) :
  size (alter f k t) = size t.
Proof. by rewrite <-!size_dom, dom_alter_L. Qed.

Lemma size_delete_le (k : string) (t : gmap string Row) :
  (size (base.delete k t) ≤ size t)%nat.
Proof.
  destruct (t !! k) eqn:Hk.
  - rewrite map_size_delete_Some by eauto. lia.
  - by rewrite map_size_delete_None.
Qed.

(** The rows after a [set], whatever the queries do: the rows before, or
    those with one row rewritten, or, if there was room, with one row
    more. *)
Lemma set_rows (this : CacheService) (key : option string)
    (value : option json) (now : Z) (st : Store) :
  let t' := rows (cacheService.set this key value now st).2 in
  t' = rows st
  ∨ (∃ k r, is_Some (rows st !! k) ∧ t' = <[k := r]> (rows st))
  ∨ (∃ k r, rows st !! k = None ∧ Z.of_nat (size (rows st)) < maxSize this
            ∧ t' = <[k := r]> (rows st)).
Proof.
  unfold cacheService.set. destruct (truthy key) as [k|]; [| by left].
  destruct value as [v|]; [| by left].
  unfold_service. unfold query.
  destruct (failures st) as [|[e1|] [|[e2|] [|[e3|] fs]]]; simpl;
    destruct (rows st !! k) as [r|] eqn:Hr; simpl;
    rewrite ?andb_true_r, ?andb_false_r; simpl;
    repeat match goal with
    | |- context [Z.geb ?a ?b] => destruct (Z.geb_spec a b); simpl
    end;
    rewrite ?Hr; simpl;
    repeat match goal with
    | |- context [String.eqb (message ?a) ?b] =>
        destruct (String.eqb (message a) b); simpl
    end;
    try (by left).
  all: try (right; left; eexists k, _; split; [by eexists |];
            apply map_eq; intros j; rewrite lookup_alter, lookup_insert;
            case_decide; subst; by rewrite ?Hr).
  all: right; right; by eexists k, _.
Qed.

(** A call never leaves more rows than it found, unless it is a [set] that
    found room. *)
Lemma perform_size (this : CacheService) (op : cacheService.operation) (st : Store) :
  (size (rows (cacheService.perform this op st)) ≤ size (rows st))%nat
  ∨ Z.of_nat (size (rows (cacheService.perform this op st))) ≤ maxSize this.
Proof.
  destruct op as [key value now|key|key|key| | |m now| ]; simpl.
  - destruct (set_rows this key value now st)
      as [-> | [(k & r & Hk & ->) | (k & r & Hk & Hroom & ->)]].
    + by left.
    + left. by rewrite map_size_insert_Some.
    + right. rewrite map_size_insert_None by done. lia.
  - unfold cacheService.get. destruct (truthy key) as [k|]; [| by left].
    unfold_service. step_query; [by left |].
    destruct (rows st !! k) as [r|]; simpl; [| by left].
    unfold CacheItem_value_get; simpl. destruct (JSON.parse _); by left.
  - unfold cacheService.delete. destruct (truthy key) as [k|]; [| by left].
    unfold_service. step_query; [by left |]. left. apply size_delete_le.
  - unfold cacheService.has. destruct (truthy key) as [k|]; [| by left].
    unfold_service. step_query; by left.
  - unfold_service. step_query; by left.
  - unfold_service. step_query; [by left |]. left. rewrite map_size_empty. lia.
  - unfold cacheService.cleanupOldEntries.
    destruct (Qle_bool _ _); [by left |].
    unfold_service. step_query; [by left |]. left. apply map_size_filter.
  - unfold_service. repeat step_query; by left.
Qed.

Lemma history_within_capacity (this : CacheService) (ops : list cacheService.operation)
    (st : Store) :
  Z.of_nat (size (rows st)) ≤ maxSize this →
  Forall (λ st', Z.of_nat (size (rows st')) ≤ maxSize this)
         (cacheService.history this ops st).
Proof.
  revert st. induction ops as [|op ops IH]; intros st Hst; simpl; [done |].
  assert (Z.of_nat (size (rows (cacheService.perform this op st))) ≤ maxSize this).
  { destruct (perform_size this op st); lia. }
  constructor; auto.
Qed.

(** C2, as the code has it: for a [maxSize] that is not negative, starting
    from an empty store, whatever calls are made one after the other, with
    whatever arguments, and whichever queries of the store fail, the store
    holds at most [maxSize] keys after each call. *)
Theorem capacity_invariant (this : CacheService) (ops : list cacheService.operation)
    (fs : list (option Error)) :
  0 ≤ maxSize this →
  Forall (λ st', Z.of_nat (size (rows st')) ≤ maxSize this)
         (cacheService.history this ops {| rows := ∅; failures := fs |}).
Proof.
  intros Hmax. apply history_within_capacity. simpl.
  rewrite map_size_empty. lia.
Qed.

(** The claim fails for a capacity that is negative, which the constructor
    keeps: with [MAX_CACHE_SIZE=-5] the store that is empty, after a call of
    [size] on it, holds more than [maxSize] keys. *)
Lemma negative_capacity_is_exceeded :
  let this := constructor (Some (-5)) in
  let st := {| rows := ∅; failures := [] |} in
  maxSize this = -5
  ∧ cacheService.history this [cacheService.OpSize] st = [st]
  ∧ ¬ Forall (λ st', Z.of_nat (size (rows st')) ≤ maxSize this)
        (cacheService.history this [cacheService.OpSize] st).
Proof.
  split; [done |]. split; [done |].
  intros H. apply Forall_cons_1 in H as [H _]. by vm_compute in H.
Qed.

(** ** Errors *)

Lemma set_invalid_key {Value : Type} {codec : Codec Value}
    (this : CacheService) (key : option string)
    (value : option Value) (now : Z) (st : Store) :
  truthy key = None →
  cacheService.set this key value now st
  = (Throw {| message := "Failed to set cache value: Key is required" |}, st).
Proof. intros H. unfold cacheService.set. by rewrite H. Qed.

Lemma set_missing_value {Value : Type} {codec : Codec Value}
    (this : CacheService) (key : option string) (k : string)
    (now : Z) (st : Store) :
  truthy key = Some k →
  cacheService.set this key (None : option Value) now st
  = (Throw {| message := "Failed to set cache value: Value is required" |}, st).
Proof. intros H. unfold cacheService.set. by rewrite H. Qed.

Lemma set_first_query_rejected (this : CacheService) (k : string) (v : json)
    (now : Z) (st : Store) (e : Error) (fs : list (option Error)) :
  k ≠ EmptyString →
  failures st = Some e :: fs →
  cacheService.set this (Some k) (Some v) now st
  = (Throw (set_rethrown e), {| rows := rows st; failures := tail fs |}).
Proof.
  intros Hk Hfs. unfold cacheService.set. rewrite truthy_nonempty by done.
  unfold_service. unfold query, set_rethrown. rewrite Hfs; simpl.
  destruct fs as [|[e'|] fs']; simpl;
    by destruct (String.eqb (message e) "Cache is full").
Qed.

(** With arguments that are valid, [set] throws nothing but the capacity
    error or what its [catch] makes of a rejection of the store. *)
Lemma set_throws_only {Value : Type} {codec : Codec Value}
    (this : CacheService) (k : string) (v : Value) (now : Z)
    (st : Store) (err : Error) :
  k ≠ EmptyString →
  (cacheService.set this (Some k) (Some v) now st).1 = Throw err →
  err = Cache_is_full ∨ ∃ e, Some e ∈ failures st ∧ err = set_rethrown e.
Proof.
  intros Hk. unfold cacheService.set. rewrite truthy_nonempty by done.
  unfold_service. unfold query, set_rethrown.
  destruct (failures st) as [|[e1|] [|[e2|] [|[e3|] fs]]]; simpl;
    destruct (rows st !! k) as [r|] eqn:Hr; simpl;
    repeat match goal with
    | |- context [Z.geb ?a ?b] => destruct (Z.geb a b); simpl
    end;
    rewrite ?Hr; simpl;
    repeat match goal with
    | |- context [String.eqb (message ?a) ?b] =>
        destruct (String.eqb (message a) b) eqn:?; simpl
    end;
    intros [= <-];
    first
      [ by left
      | match goal with
        | e : Error |- _ =>
            right; exists e; split;
            [ set_solver
            | by repeat match goal with
                 | H : String.eqb _ _ = _ |- _ => rewrite H; clear H
                 end ]
        end ].
Qed.

Lemma cleanupOldEntries_invalid_age (m : Q) (now : Z) (st : Store) :
  (m <= 0)%Q →
  cacheService.cleanupOldEntries (Some m) now st
  = (Throw {| message := "Failed to cleanup old entries: Max age must be positive" |},
     st).
Proof.
  intros H. apply Qle_bool_iff in H.
  unfold cacheService.cleanupOldEntries; simpl. by rewrite H.
Qed.

(** A rejection of the store at one of the three queries of [set]: the
    count, the lookup of the key, and the update or creation of the row. *)
Lemma set_query_rejected {Value : Type} {codec : Codec Value}
    (this : CacheService) (k : string) (v : Value) (now : Z) (st : Store)
    (e : Error) (fs : list (option Error)) :
  k ≠ EmptyString →
  (failures st = Some e :: fs → hd None fs = None →
   cacheService.set this (Some k) (Some v) now st
   = (Throw (set_rethrown e), {| rows := rows st; failures := tail fs |}))
  ∧ (failures st = None :: Some e :: fs →
     cacheService.set this (Some k) (Some v) now st
     = (Throw (set_rethrown e), {| rows := rows st; failures := fs |}))
  ∧ (failures st = None :: None :: Some e :: fs →
     is_Some (rows st !! k) ∨ Z.of_nat (size (rows st)) < maxSize this →
     cacheService.set this (Some k) (Some v) now st
     = (Throw (set_rethrown e), {| rows := rows st; failures := fs |})).
Proof.
  intros Hk. unfold cacheService.set. rewrite truthy_nonempty by done.
  unfold_service. unfold query, set_rethrown. repeat apply conj.
  - intros -> Hhd. destruct fs as [|[e'|] fs']; [| done |]; simpl;
      by destruct (String.eqb (message e) "Cache is full").
  - intros ->. simpl. by destruct (String.eqb (message e) "Cache is full").
  - intros -> Hroom. simpl.
    destruct (rows st !! k) as [r|] eqn:Hr; simpl.
    + rewrite andb_false_r. simpl.
      by destruct (String.eqb (message e) "Cache is full").
    + destruct Hroom as [[? [=]]|Hroom].
      destruct (Z.geb_spec (Z.of_nat (size (rows st))) (maxSize this)); [lia |].
      simpl. by destruct (String.eqb (message e) "Cache is full").
Qed.

(** The count and the lookup of [set] are started together: when the store
    rejects both, what [set] makes of one of the two rejections is thrown. *)
Lemma set_both_queries_rejected {Value : Type} {codec : Codec Value}
    (this : CacheService) (k : string) (v : Value) (now : Z) (st : Store)
    (e1 e2 : Error) (fs : list (option Error)) :
  k ≠ EmptyString →
  failures st = Some e1 :: Some e2 :: fs →
  ∃ e, (e = e1 ∨ e = e2)
       ∧ cacheService.set this (Some k) (Some v) now st
         = (Throw (set_rethrown e), {| rows := rows st; failures := fs |}).
Proof.
  intros Hk Hfs. exists e1. split; [by left |].
  unfold cacheService.set. rewrite truthy_nonempty by done.
  unfold_service. unfold query, set_rethrown. rewrite Hfs. simpl.
  by destruct (String.eqb (message e1) "Cache is full").
Qed.

(** The capacity error, when the count and the lookup are not rejected. *)
Lemma set_refused {Value : Type} {codec : Codec Value}
    (this : CacheService) (k : string) (v : Value) (now : Z) (st : Store) :
  k ≠ EmptyString →
  hd None (failures st) = None →
  hd None (tail (failures st)) = None →
  rows st !! k = None →
  maxSize this ≤ Z.of_nat (size (rows st)) →
  cacheService.set this (Some k) (Some v) now st
  = (Throw Cache_is_full,
     {| rows := rows st; failures := tail (tail (failures st)) |}).
Proof.
  intros Hk H1 H2 Hnone Hfull.
  unfold cacheService.set. rewrite truthy_nonempty by done.
  unfold_service. unfold query.
  destruct (failures st) as [|[e1|] [|[e2|] fs]]; try done; simpl;
    rewrite Hnone; simpl;
    by destruct (Z.geb_spec (Z.of_nat (size (rows st))) (maxSize this)); [| lia].
Qed.

(** C7, as the code has it: every failure reaches the caller as a plain
    [Error]. A validation failure (a key that is empty or absent, a value
    that is absent, an age that is not positive) is thrown as the prefix of
    the operation followed by the validation message, and writes nothing.
    In [set], a rejection of the store, be it at the count, at the lookup of
    the key or at the update or creation of the row, is thrown as the same
    prefix followed by the message of the cause, unless that message is
    [Cache is full], and writes nothing; an error with the message
    [Cache is full], the capacity error among them, passes through as it
    is; and [set] with valid arguments throws nothing else. *)
Theorem failures_reach_the_caller {Value : Type} {codec : Codec Value}
    (this : CacheService) (st : Store) :
  (∀ key (value : option Value) now, truthy key = None →
     cacheService.set this key value now st
     = (Throw {| message := "Failed to set cache value: Key is required" |}, st))
  ∧ (∀ key k now, truthy key = Some k →
     cacheService.set this key (None : option Value) now st
     = (Throw {| message := "Failed to set cache value: Value is required" |}, st))
  ∧ (∀ key, truthy key = None →
     cacheService.get (Value := Value) key st
       = (Throw {| message := "Failed to get cache value: Key is required" |}, st)
     ∧ cacheService.delete key st
       = (Throw {| message := "Failed to delete cache value: Key is required" |}, st)
     ∧ cacheService.has key st
       = (Throw {| message := "Failed to check key existence: Key is required" |}, st))
  ∧ (∀ m now, (m <= 0)%Q →
     cacheService.cleanupOldEntries (Some m) now st
     = (Throw {| message :=
                   "Failed to cleanup old entries: Max age must be positive" |}, st))
  ∧ (∀ e, (message e ≠ "Cache is full" →
           set_rethrown e
           = {| message := "Failed to set cache value: " +:+ message e |})
          ∧ (message e = "Cache is full" → set_rethrown e = e))
  ∧ (∀ k (v : Value) now e fs, k ≠ EmptyString →
     failures st = Some e :: fs → hd None fs = None →
     cacheService.set this (Some k) (Some v) now st
     = (Throw (set_rethrown e), {| rows := rows st; failures := tail fs |}))
  ∧ (∀ k (v : Value) now e fs, k ≠ EmptyString →
     failures st = None :: Some e :: fs →
     cacheService.set this (Some k) (Some v) now st
     = (Throw (set_rethrown e), {| rows := rows st; failures := fs |}))
  ∧ (∀ k (v : Value) now e1 e2 fs, k ≠ EmptyString →
     failures st = Some e1 :: Some e2 :: fs →
     ∃ e, (e = e1 ∨ e = e2)
          ∧ cacheService.set this (Some k) (Some v) now st
            = (Throw (set_rethrown e), {| rows := rows st; failures := fs |}))
  ∧ (∀ k (v : Value) now e fs, k ≠ EmptyString →
     failures st = None :: None :: Some e :: fs →
     is_Some (rows st !! k) ∨ Z.of_nat (size (rows st)) < maxSize this →
     cacheService.set this (Some k) (Some v) now st
     = (Throw (set_rethrown e), {| rows := rows st; failures := fs |}))
  ∧ (∀ k (v : Value) now, k ≠ EmptyString →
     hd None (failures st) = None → hd None (tail (failures st)) = None →
     rows st !! k = None →
     maxSize this ≤ Z.of_nat (size (rows st)) →
     cacheService.set this (Some k) (Some v) now st
     = (Throw Cache_is_full,
        {| rows := rows st; failures := tail (tail (failures st)) |}))
  ∧ (∀ k (v : Value) now err, k ≠ EmptyString →
     (cacheService.set this (Some k) (Some v) now st).1 = Throw err →
     err = Cache_is_full ∨ ∃ e, Some e ∈ failures st ∧ err = set_rethrown e).
Proof.
  repeat apply conj.
  - intros. by apply set_invalid_key.
  - intros. by eapply set_missing_value.
  - intros key H. unfold cacheService.get, cacheService.delete, cacheService.has.
    by rewrite H.
  - intros. by apply cleanupOldEntries_invalid_age.
  - intros e. unfold set_rethrown. split.
    + intros Hne. by apply String.eqb_neq in Hne as ->.
    + intros He. by apply String.eqb_eq in He as ->.
  - intros k v now e fs Hk.
    by apply (set_query_rejected this k v now st e fs Hk).
  - intros k v now e fs Hk.
    by apply (set_query_rejected this k v now st e fs Hk).
  - intros k v now e1 e2 fs Hk Hfs. by apply set_both_queries_rejected.
  - intros k v now e fs Hk.
    by apply (set_query_rejected this k v now st e fs Hk).
  - intros. by apply set_refused.
  - intros k v now err Hk Herr. by apply (set_throws_only this k v now st err).
Qed.

(** The claim fails on the kinds of error. A validation failure of [set]
    comes out in the wrapper of a rejection of the store, the two differing
    in nothing but the text after the prefix; a rejection of the store with
    the message [Key is required] comes out as the very error of an empty
    key, and one with the message [Cache is full] comes out unwrapped, the
    very error of a full cache. *)
Lemma error_kinds_not_told_apart :
  let this := {| maxSize := 1 |} in
  let full := healthy {[ "a" := {| rawValue := "1"; timestamp := 0 |} ]} in
  let rejecting (m : string) :=
    {| rows := ∅; failures := [Some {| message := m |}] |} in
  (cacheService.set this (Some EmptyString) (Some JNull) 0 (healthy ∅)).1
    = Throw {| message := "Failed to set cache value: " +:+ "Key is required" |}
  ∧ (cacheService.set this (Some "b") (Some JNull) 0
       (rejecting "SQLITE_BUSY: database is locked")).1
    = Throw {| message :=
                 "Failed to set cache value: " +:+ "SQLITE_BUSY: database is locked" |}
  ∧ (cacheService.set this (Some "b") (Some JNull) 0 (rejecting "Key is required")).1
    = (cacheService.set this (Some EmptyString) (Some JNull) 0 (healthy ∅)).1
  ∧ (cacheService.set this (Some "b") (Some JNull) 0 full).1
    = Throw Cache_is_full
  ∧ (cacheService.set this (Some "b") (Some JNull) 0 (rejecting "Cache is full")).1
    = (cacheService.set this (Some "b") (Some JNull) 0 full).1.
Proof. repeat split. Qed.

(** ** The round trip of the codec *)

#[local] Arguments String.append !s1 s2.

Lemma append_assoc (a b c : string) : (a +:+ b) +:+ c = a +:+ (b +:+ c).
Proof. induction a as [|x a IH]; cbn; [done | by f_equal]. Qed.

Lemma length_append (a b : string) :
  String.length (a +:+ b) = (String.length a + String.length b)%nat.
Proof. induction a as [|x a IH]; cbn; [done | by f_equal]. Qed.

(** *** Strings *)

Lemma parse_chars_escape (s rest : string) :
  JSON.parse_chars (JSON.escape s +:+ String JSON.dquote rest) = Some (s, rest).
Proof.
  induction s as [|c s IH]; [done |].
  cbn [JSON.escape]. rewrite append_assoc.
  generalize dependent (JSON.escape s +:+ String JSON.dquote rest).
  intros tl IH.
  destruct c as [[] [] [] [] [] [] [] []];
    match goal with
    | |- context [JSON.escape_char ?c] =>
        let x := eval vm_compute in (JSON.escape_char c) in
        change (JSON.escape_char c) with x
    end; cbn; by rewrite IH.
Qed.

Lemma parse_chars_quoted (s rest : string) :
  ∃ body, JSON.QuoteJSONString s +:+ rest = String JSON.dquote body
          ∧ JSON.parse_chars body = Some (s, rest).
Proof.
  exists (JSON.escape s +:+ String JSON.dquote rest). split.
  - unfold JSON.QuoteJSONString. simpl. by rewrite append_assoc.
  - apply parse_chars_escape.
Qed.

(** *** Numbers *)

Lemma ends_value_no_digit (rest : string) :
  ends_value rest = true →
  JSON.scan_digits rest = (Nil, rest) ∧ JSON.starts_frac_or_exp rest = false.
Proof.
  destruct rest as [|c rest]; [done |].
  destruct c as [[] [] [] [] [] [] [] []]; by cbn.
Qed.

Lemma scan_digits_uint (d : uint) (rest : string) :
  JSON.scan_digits rest = (Nil, rest) →
  JSON.scan_digits (NilEmpty.string_of_uint d +:+ rest) = (d, rest).
Proof.
  intros Hrest. induction d; cbn; [done | by rewrite IHd ..].
Qed.

Lemma nzhead_not_D0 (u u' : uint) : nzhead u ≠ D0 u'.
Proof. induction u; by cbn. Qed.

Lemma int_digits_to_uint (p : positive) : JSON.int_digits (Pos.to_uint p) = true.
Proof.
  pose proof (Unsigned.to_uint_nonzero p) as Hnz.
  pose proof (Unsigned.to_uint_nonnil p) as Hnn.
  pose proof (DecimalPos.Unsigned.to_of (Pos.to_uint p)) as Hnorm.
  rewrite Unsigned.of_to in Hnorm. cbn in Hnorm.
  destruct (Pos.to_uint p) as [|u| | | | | | | | |]; try done.
  change (unorm (D0 u)) with (unorm u) in Hnorm. unfold unorm in Hnorm.
  destruct (nzhead u) as [|u0| | | | | | | | |] eqn:Hu; try done.
  by destruct (nzhead_not_D0 u u0).
Qed.

Lemma string_of_uint_nonnil (d : uint) :
  d ≠ Nil → NilZero.string_of_uint d = NilEmpty.string_of_uint d.
Proof. by destruct d. Qed.

Lemma string_of_uint_head (d : uint) (rest : string) :
  d ≠ Nil →
  ∃ c s, NilEmpty.string_of_uint d +:+ rest = String c s ∧ JSON.is_digit c = true.
Proof. destruct d; [done | intros _; cbn; eauto ..]. Qed.

Lemma parse_number_digits (d : uint) (rest : string) :
  d ≠ Nil → JSON.int_digits d = true → ends_value rest = true →
  JSON.parse_number (NilEmpty.string_of_uint d +:+ rest)
  = Some (JNum (Z.of_uint d), rest).
Proof.
  intros Hd Hint [Hscan Hfrac]%ends_value_no_digit.
  pose proof (scan_digits_uint d rest Hscan) as Hs.
  destruct (string_of_uint_head d rest Hd) as (c & s & Hcs & Hc).
  unfold JSON.parse_number. rewrite Hcs in *.
  assert (Hneg : match String c s with
                 | String "-" s' => (true, s')
                 | _ => (false, String c s)
                 end = (false, String c s)).
  { destruct c as [[] [] [] [] [] [] [] []]; by cbn in *. }
  rewrite Hneg, Hs, Hint, Hfrac. done.
Qed.

Lemma parse_number_NumberToString (n : Z) (rest : string) :
  ends_value rest = true →
  JSON.parse_number (JSON.NumberToString n +:+ rest) = Some (JNum n, rest).
Proof.
  intros Hrest. unfold JSON.NumberToString. destruct n as [|p|p]; cbn [Z.to_int].
  - change (NilZero.string_of_int (Pos zero))
      with (NilEmpty.string_of_uint (D0 Nil)).
    by rewrite parse_number_digits.
  - cbn [NilZero.string_of_int].
    rewrite string_of_uint_nonnil by apply Unsigned.to_uint_nonnil.
    rewrite parse_number_digits;
      auto using Unsigned.to_uint_nonnil, int_digits_to_uint.
    unfold Z.of_uint. by rewrite Unsigned.of_to.
  - cbn [NilZero.string_of_int].
    rewrite string_of_uint_nonnil by apply Unsigned.to_uint_nonnil.
    apply ends_value_no_digit in Hrest as [Hscan Hfrac].
    unfold JSON.parse_number. cbn [String.append].
    rewrite (scan_digits_uint _ rest Hscan), int_digits_to_uint, Hfrac.
    cbn. unfold Z.of_uint. by rewrite Unsigned.of_to.
Qed.

(** The first character of the text of a number is a digit or the sign. *)
Lemma NumberToString_head (n : Z) :
  ∃ c s, JSON.NumberToString n = String c s
         ∧ (JSON.is_digit c || Ascii.eqb c "-") = true.
Proof.
  unfold JSON.NumberToString. destruct n as [|p|p]; cbn [Z.to_int].
  - by exists "0"%char, EmptyString.
  - cbn [NilZero.string_of_int].
    rewrite string_of_uint_nonnil by apply Unsigned.to_uint_nonnil.
    destruct (string_of_uint_head (Pos.to_uint p) EmptyString
                (Unsigned.to_uint_nonnil p)) as (c & s & Hcs & Hc).
    exists c. destruct (NilEmpty.string_of_uint (Pos.to_uint p)) as [|c' s'];
      [done |]. cbn in Hcs. injection Hcs as -> _. exists s'. by rewrite Hc.
  - cbn [NilZero.string_of_int]. eexists _, _. split; [done |].
    apply orb_true_r.
Qed.

Lemma parse_value_number (fuel : nat) (c : ascii) (s : string) :
  (JSON.is_digit c || Ascii.eqb c "-") = true →
  JSON.parse_value (S fuel) (String c s) = JSON.parse_number (String c s).
Proof. destruct c as [[] [] [] [] [] [] [] []]; by cbn. Qed.

(** *** Values *)

Lemma stringify_JArr_cons (x : json) (l : list json) :
  JSON.stringify (JArr (x :: l))
  = "[" +:+ JSON.stringify x +:+ JSON.items_tail l.
Proof. reflexivity. Qed.

Lemma stringify_JObj_cons (k : string) (x : json) (l : list (string * json)) :
  JSON.stringify (JObj ((k, x) :: l))
  = "{" +:+ JSON.QuoteJSONString k +:+ ":" +:+ JSON.stringify x
        +:+ JSON.props_tail l.
Proof. reflexivity. Qed.

Lemma stringify_head (v : json) :
  ∃ c s, JSON.stringify v = String c s ∧ starts_value c = true.
Proof.
  destruct v as [|[]|n|s|[|x l]|[|[k x] l]]; try (by eexists _, _).
  destruct (NumberToString_head n) as (c & s & Hcs & Hc).
  exists c, s. split; [done |].
  destruct c as [[] [] [] [] [] [] [] []]; by cbn in *.
Qed.

Lemma parse_value_array (fuel : nat) (c : ascii) (s : string) :
  starts_value c = true →
  JSON.parse_value (S fuel) (String "[" (String c s))
  = match JSON.parse_value fuel (String c s) with
    | Some (x, r) =>
        match JSON.parse_items fuel r with
        | Some (l, r') => Some (JArr (x :: l), r')
        | None => None
        end
    | None => None
    end.
Proof. destruct c as [[] [] [] [] [] [] [] []]; by cbn. Qed.

Lemma parse_value_string (fuel : nat) (body : string) :
  JSON.parse_value (S fuel) (String JSON.dquote body)
  = match JSON.parse_chars body with
    | Some (t, r) => Some (JStr t, r)
    | None => None
    end.
Proof. reflexivity. Qed.

Lemma parse_value_object (fuel : nat) (body : string) :
  JSON.parse_value (S fuel) (String "{" (String JSON.dquote body))
  = match JSON.parse_key (String JSON.dquote body) with
    | Some (k, r0) =>
        match JSON.parse_value fuel r0 with
        | Some (x, r) =>
            match JSON.parse_props fuel r with
            | Some (l, r') => Some (JObj ((k, x) :: l), r')
            | None => None
            end
        | None => None
        end
    | None => None
    end.
Proof. reflexivity. Qed.

Lemma parse_items_comma (fuel : nat) (s : string) :
  JSON.parse_items (S fuel) (String "," s)
  = match JSON.parse_value fuel s with
    | Some (x, r) =>
        match JSON.parse_items fuel r with
        | Some (l, r') => Some (x :: l, r')
        | None => None
        end
    | None => None
    end.
Proof. reflexivity. Qed.

Lemma parse_props_comma (fuel : nat) (s : string) :
  JSON.parse_props (S fuel) (String "," s)
  = match JSON.parse_key s with
    | Some (k, r0) =>
        match JSON.parse_value fuel r0 with
        | Some (x, r) =>
            match JSON.parse_props fuel r with
            | Some (l, r') => Some ((k, x) :: l, r')
            | None => None
            end
        | None => None
        end
    | None => None
    end.
Proof. reflexivity. Qed.

Lemma parse_key_quoted (k rest : string) :
  JSON.parse_key (JSON.QuoteJSONString k +:+ String ":" rest) = Some (k, rest).
Proof.
  destruct (parse_chars_quoted k (String ":" rest)) as (body & -> & Hbody).
  unfold JSON.parse_key.
  change (JSON.skip_ws (String JSON.dquote body)) with (String JSON.dquote body).
  cbv iota. change (N_of_ascii JSON.dquote =? 34)%N with true. cbv iota.
  by rewrite Hbody.
Qed.

Lemma ends_value_items_tail (l : list json) (rest : string) :
  ends_value (JSON.items_tail l +:+ rest) = true.
Proof. by destruct l. Qed.

Lemma ends_value_props_tail (l : list (string * json)) (rest : string) :
  ends_value (JSON.props_tail l +:+ rest) = true.
Proof. by destruct l as [|[k y] l]. Qed.

Lemma parse_items_tail (l : list json) :
  Forall parses_back l →
  ∀ (fuel : nat) (rest : string),
    ends_value rest = true →
    (String.length (JSON.items_tail l) ≤ fuel)%nat →
    JSON.parse_items fuel (JSON.items_tail l +:+ rest) = Some (l, rest).
Proof.
  induction 1 as [|y l Hy Hl IH]; intros fuel rest Hrest Hfuel.
  - destruct fuel as [|fuel]; [cbn in Hfuel; lia | done].
  - cbn [JSON.items_tail] in *. rewrite !length_append in Hfuel.
    destruct fuel as [|fuel]; [cbn in Hfuel; lia |].
    cbn in Hfuel. rewrite !append_assoc.
    destruct (stringify_head y) as (c & s & Hcs & Hc).
    assert (Hy' : JSON.parse_value fuel
                    (JSON.stringify y +:+ JSON.items_tail l +:+ rest)
                  = Some (y, JSON.items_tail l +:+ rest)).
    { apply Hy; [apply ends_value_items_tail | lia]. }
    cbn [String.append]. rewrite parse_items_comma, Hy'.
    rewrite IH; [done | done | lia].
Qed.

Lemma parse_props_tail (l : list (string * json)) :
  Forall (λ kv, parses_back kv.2) l →
  ∀ (fuel : nat) (rest : string),
    ends_value rest = true →
    (String.length (JSON.props_tail l) ≤ fuel)%nat →
    JSON.parse_props fuel (JSON.props_tail l +:+ rest) = Some (l, rest).
Proof.
  induction 1 as [|[k y] l Hy Hl IH]; intros fuel rest Hrest Hfuel.
  - destruct fuel as [|fuel]; [cbn in Hfuel; lia | done].
  - cbn [JSON.props_tail] in *. rewrite !length_append in Hfuel.
    destruct fuel as [|fuel]; [cbn in Hfuel; lia |].
    cbn [String.length] in Hfuel. cbn [snd] in Hy. rewrite !append_assoc.
    assert (Hy' : JSON.parse_value fuel
                    (JSON.stringify y +:+ JSON.props_tail l +:+ rest)
                  = Some (y, JSON.props_tail l +:+ rest)).
    { apply Hy; [apply ends_value_props_tail | lia]. }
    cbn [String.append]. rewrite parse_props_comma, parse_key_quoted, Hy'.
    rewrite IH; [done | done | lia].
Qed.

Lemma stringify_parses_back (v : json) : parses_back v.
Proof.
  induction v as [|b|n|s|items IH|props IH] using JSON.json_ind;
    intros fuel rest Hrest Hfuel;
    (destruct fuel as [|fuel]; [try (by cbn in Hfuel; lia) |]).
  - done.
  - destruct b; cbn in Hfuel; lia.
  - by destruct b.
  - destruct (NumberToString_head n) as (c & s & Hcs & Hc).
    cbn [JSON.stringify] in *. rewrite Hcs in Hfuel. cbn in Hfuel. lia.
  - destruct (NumberToString_head n) as (c & s & Hcs & Hc).
    cbn [JSON.stringify]. rewrite <-(parse_number_NumberToString n rest Hrest).
    rewrite Hcs. cbn [String.append]. by apply parse_value_number.
  - destruct (parse_chars_quoted s rest) as (body & Hq & Hbody).
    cbn [JSON.stringify]. rewrite Hq.
    by rewrite parse_value_string, Hbody.
  - destruct items; cbn in Hfuel; lia.
  - destruct items as [|x l]; [done |].
    rewrite stringify_JArr_cons in *. rewrite !length_append in Hfuel.
    cbn in Hfuel. rewrite !append_assoc.
    apply Forall_cons in IH as [Hx Hl].
    assert (Hx' : JSON.parse_value fuel
                    (JSON.stringify x +:+ JSON.items_tail l +:+ rest)
                  = Some (x, JSON.items_tail l +:+ rest)).
    { apply Hx; [apply ends_value_items_tail | lia]. }
    destruct (stringify_head x) as (c & s & Hcs & Hc).
    cbn [String.append]. rewrite Hcs in *. cbn [String.append] in *.
    rewrite parse_value_array, Hx' by done.
    rewrite parse_items_tail; [done | done | done | lia].
  - destruct props as [|[k x] l]; cbn in Hfuel; lia.
  - destruct props as [|[k x] l]; [done |].
    rewrite stringify_JObj_cons in *. rewrite !length_append in Hfuel.
    cbn in Hfuel. rewrite !append_assoc.
    apply Forall_cons in IH as [Hx Hl]. cbn in Hx.
    assert (Hx' : JSON.parse_value fuel
                    (JSON.stringify x +:+ JSON.props_tail l +:+ rest)
                  = Some (x, JSON.props_tail l +:+ rest)).
    { apply Hx; [apply ends_value_props_tail | lia]. }
    destruct (parse_chars_quoted k
                (String ":" (JSON.stringify x +:+ JSON.props_tail l +:+ rest)))
      as (body & Hq & Hbody).
    cbn [String.append]. rewrite Hq, parse_value_object, <-Hq.
    rewrite parse_key_quoted, Hx'. rewrite parse_props_tail; [done | done | done | lia].
Qed.

(** [JSON.parse] gives back the value that [JSON.stringify] wrote. *)
Lemma parse_stringify (v : json) : JSON.parse (JSON.stringify v) = Some v.
Proof.
  unfold JSON.parse.
  pose proof (stringify_parses_back v (S (String.length (JSON.stringify v)))
                EmptyString eq_refl) as H.
  assert (Hnil : ∀ s, s +:+ EmptyString = s).
  { induction s as [|c s IH]; cbn; [done | by f_equal]. }
  rewrite Hnil in H. rewrite H by lia. done.
Qed.

(** ** Reading back *)

(** What [get] returns on a store whose queries succeed. *)
Lemma get_healthy {Value : Type} {codec : Codec Value} (k : string)
    (t : gmap string Row) :
  k ≠ EmptyString →
  cacheService.get (Some k) (healthy t)
  = match t !! k with
    | Some r =>
        match JSON_parse (rawValue r) with
        | Some v => (Return v, healthy t)
        | None =>
            (Throw {| message := "Failed to get cache value: "
                                 +:+ message SyntaxError |}, healthy t)
        end
    | None => (Return null, healthy t)
    end.
Proof.
  intros Hk. unfold cacheService.get. rewrite truthy_nonempty by done.
  run_healthy. destruct (t !! k) as [r|]; simpl; [| done].
  unfold CacheItem_value_get; simpl. by destruct (JSON_parse (rawValue r)).
Qed.

(** A [set] that succeeds leaves the text of the value in the row. *)
Lemma set_succeeded_healthy {Value : Type} {codec : Codec Value}
    (this : CacheService) (k : string) (v : Value) (now : Z)
    (t : gmap string Row) :
  k ≠ EmptyString →
  (cacheService.set this (Some k) (Some v) now (healthy t)).1 = Return true →
  (cacheService.set this (Some k) (Some v) now (healthy t)).2
  = healthy (<[k := {| rawValue := JSON_stringify v; timestamp := now |}]> t).
Proof.
  intros Hk. rewrite set_healthy by done.
  destruct (t !! k); [done |].
  by destruct (Z.of_nat (size t) >=? maxSize this).
Qed.



(** C5, as the code has it: [get] of a non-empty key returns the parsed
    text of the row when there is one, so the value that [set] stored; when
    there is none it returns [null], which is what it returns for a row
    that stores [null] as well. *)
Theorem get_value_or_null (k : string) (t : gmap string Row) :
  k ≠ EmptyString →
  (∀ r v, t !! k = Some r → JSON.parse (rawValue r) = Some v →
     cacheService.get (Some k) (healthy t) = (Return v, healthy t))
  ∧ (∀ v ts, t !! k = Some {| rawValue := JSON.stringify v; timestamp := ts |} →
     cacheService.get (Some k) (healthy t) = (Return v, healthy t))
  ∧ (t !! k = None →
     cacheService.get (Some k) (healthy t) = (Return JNull, healthy t))
  ∧ (∀ ts, t !! k = Some {| rawValue := JSON.stringify JNull; timestamp := ts |} →
     cacheService.get (Some k) (healthy t) = (Return JNull, healthy t)).
Proof.
  intros Hk. rewrite get_healthy by done. json_codec. repeat apply conj.
  - intros r v -> Hv. by rewrite Hv.
  - intros v ts ->. simpl. by rewrite parse_stringify.
  - by intros ->.
  - by intros ts ->.
Qed.

(** The claim fails on the signal for a missing key: after [set("k", null)]
    on an empty store, [get] returns the same [null] for ["k"], which has a
    row, and for ["other"], which has none. *)
Lemma get_null_for_missing_and_for_stored_null :
  let this := {| maxSize := 10 |} in
  let st := (cacheService.set this (Some "k") (Some JNull) 0 (healthy ∅)).2 in
  (cacheService.set this (Some "k") (Some JNull) 0 (healthy ∅)).1 = Return true
  ∧ is_Some (rows st !! "k")
  ∧ rows st !! "other" = None
  ∧ (cacheService.get (Some "k") st).1 = Return JNull
  ∧ (cacheService.get (Some "other") st).1 = Return JNull.
Proof.
  split; [by vm_compute |]. split; [by eexists; vm_compute |].
  repeat split; by vm_compute.
Qed.

(** ** The theorems at concrete calls *)

Lemma set_new_key_at_capacity_witness :
  let this := {| maxSize := 1 |} in
  let t : gmap string Row := {[ "a" := {| rawValue := "1"; timestamp := 5 |} ]} in
  "b" ≠ EmptyString ∧ t !! "b" = None ∧ maxSize this ≤ Z.of_nat (size t)
  ∧ cacheService.set this (Some "b") (Some (JNum 2)) 7 (healthy t)
    = (Throw Cache_is_full, healthy t).
Proof.
  intros this t.
  assert (H1 : "b" ≠ EmptyString) by discriminate.
  assert (H2 : t !! "b" = None) by reflexivity.
  assert (H3 : maxSize this ≤ Z.of_nat (size t)) by (vm_compute; discriminate).
  exact (conj H1 (conj H2 (conj H3
           (proj1 (set_new_key_at_capacity this "b" (JNum 2) 7 t H1 H2 H3))))).
Defined.

Lemma capacity_invariant_witness :
  let this := {| maxSize := 2 |} in
  0 ≤ maxSize this
  ∧ Forall (λ st', Z.of_nat (size (rows st')) ≤ maxSize this)
      (cacheService.history this
         [cacheService.OpSet (Some "a") (Some (JNum 1)) 1;
          cacheService.OpSet (Some "b") (Some (JNum 2)) 2;
          cacheService.OpSet (Some "c") (Some (JNum 3)) 3;
          cacheService.OpDelete (Some "a");
          cacheService.OpGetStats]
         {| rows := ∅; failures := [None; Some {| message := "SQLITE_BUSY" |}] |}).
Proof.
  intros this.
  assert (H : 0 ≤ maxSize this) by (vm_compute; discriminate).
  split; [exact H |]. exact (capacity_invariant this _ _ H).
Defined.

Lemma set_existing_key_updates_witness :
  let this := {| maxSize := 1 |} in
  let t : gmap string Row := {[ "a" := {| rawValue := "1"; timestamp := 5 |} ]} in
  "a" ≠ EmptyString ∧ is_Some (t !! "a")
  ∧ (cacheService.size (healthy t)).1 = Return (maxSize this)
  ∧ (cacheService.set this (Some "a") (Some (JNum 99)) 7 (healthy t)).1 = Return true
  ∧ rows (cacheService.set this (Some "a") (Some (JNum 99)) 7 (healthy t)).2 !! "a"
    = Some {| rawValue := "99"; timestamp := 7 |}.
Proof.
  intros this t.
  assert (H1 : "a" ≠ EmptyString) by discriminate.
  assert (H2 : is_Some (t !! "a")) by (eexists; reflexivity).
  destruct (set_existing_key_updates this "a" (JNum 99) 7 t H1 H2)
    as (Hret & Hrow & _).
  exact (conj H1 (conj H2 (conj eq_refl (conj Hret Hrow)))).
Defined.


Lemma get_value_or_null_witness :
  let t : gmap string Row := {[ "a" := {| rawValue := "[1,2]"; timestamp := 5 |} ]} in
  "a" ≠ EmptyString
  ∧ cacheService.get (Some "a") (healthy t)
    = (Return (JArr [JNum 1; JNum 2]), healthy t).
Proof.
  intros t.
  assert (H1 : "a" ≠ EmptyString) by discriminate.
  split; [exact H1 |].
  exact (proj1 (get_value_or_null "a" t H1) _ (JArr [JNum 1; JNum 2])
           eq_refl eq_refl).
Defined.


Lemma failures_reach_the_caller_witness :
  let this := {| maxSize := 1 |} in
  let busy := {| message := "SQLITE_BUSY: database is locked" |} in
  let st := {| rows := ∅; failures := [None; None; Some busy] |} in
  "a" ≠ EmptyString
  ∧ (is_Some (rows st !! "a") ∨ Z.of_nat (size (rows st)) < maxSize this)
  ∧ cacheService.set this (Some "a") (Some JNull) 7 st
    = (Throw (set_rethrown busy), {| rows := ∅; failures := [] |})
  ∧ set_rethrown busy
    = {| message := "Failed to set cache value: SQLITE_BUSY: database is locked" |}
  ∧ cacheService.set this (Some EmptyString) (Some JNull) 7 st
    = (Throw {| message := "Failed to set cache value: Key is required" |}, st).
Proof.
  intros this busy st.
  assert (H1 : "a" ≠ EmptyString) by discriminate.
  assert (H2 : is_Some (rows st !! "a") ∨ Z.of_nat (size (rows st)) < maxSize this)
    by (right; reflexivity).
  destruct (failures_reach_the_caller (Value := json) this st)
    as (Hkey & _ & _ & _ & Hwrap & _ & _ & _ & Hwrite & _).
  assert (H3 : message busy ≠ "Cache is full") by discriminate.
  exact (conj H1 (conj H2 (conj (Hwrite "a" JNull 7 busy [] H1 eq_refl H2)
           (conj (proj1 (Hwrap busy) H3)
                 (Hkey (Some EmptyString) (Some JNull) 7 eq_refl))))).
Defined.

Lemma delete_removes_and_reports_witness :
  let t : gmap string Row := {[ "a" := {| rawValue := "1"; timestamp := 5 |} ]} in
  "a" ≠ EmptyString ∧ "b" ≠ EmptyString
  ∧ (cacheService.delete (Some "a") (healthy t)).1 = Return true
  ∧ (cacheService.has (Some "a") (cacheService.delete (Some "a") (healthy t)).2).1
    = Return false
  ∧ (cacheService.delete (Some "b") (healthy t)).1 = Return false.
Proof.
  intros t.
  assert (H1 : "a" ≠ EmptyString) by discriminate.
  assert (H2 : "b" ≠ EmptyString) by discriminate.
  destruct (delete_removes_and_reports "a" t H1) as (Ha & _ & _ & _ & Hhas).
  destruct (delete_removes_and_reports "b" t H2) as (Hb & _).
  exact (conj H1 (conj H2 (conj Ha (conj Hhas Hb)))).
Defined.

Lemma null_value_has_but_get_null_witness :
  let this := {| maxSize := 1 |} in
  let st := (cacheService.set this (Some "k") (Some JNull) 7 (healthy ∅)).2 in
  "k" ≠ EmptyString
  ∧ (cacheService.set this (Some "k") (Some JNull) 7 (healthy ∅)).1 = Return true
  ∧ (cacheService.has (Some "k") st).1 = Return true
  ∧ (cacheService.get (Some "k") st).1 = Return JNull.
Proof.
  intros this st.
  assert (H1 : "k" ≠ EmptyString) by discriminate.
  assert (H2 : (cacheService.set this (Some "k") (Some JNull) 7 (healthy ∅)).1
               = Return true) by reflexivity.
  destruct (null_value_has_but_get_null this "k" 7 ∅ H1 H2) as (Hhas & Hget & _).
  exact (conj H1 (conj H2 (conj Hhas Hget))).
Defined.

(** ** The scenarios of the specification *)

(** With [maxSize = 2]: two keys are admitted, a third is refused, the first
    can still be updated and read back, and two items remain. *)
Example scenario_capacity_of_two :
  let this := constructor (Some 2) in
  let s1 := cacheService.set this (Some "a") (Some (JNum 1)) 1 (healthy ∅) in
  let s2 := cacheService.set this (Some "b") (Some (JNum 2)) 2 s1.2 in
  let s3 := cacheService.set this (Some "c") (Some (JNum 3)) 3 s2.2 in
  let s4 := cacheService.set this (Some "a") (Some (JNum 99)) 4 s3.2 in
  s1.1 = Return true ∧ s2.1 = Return true ∧ s3.1 = Throw Cache_is_full
  ∧ s4.1 = Return true
  ∧ (cacheService.get (Some "a") s4.2).1 = Return (JNum 99)
  ∧ (cacheService.size s4.2).1 = Return 2.
Proof. repeat split; by vm_compute. Qed.

(** An item written at 1000 ms is removed by a cleanup with an age of
    0.0001 minute (6 ms) made 10 ms later. *)
Example scenario_cleanup_after_threshold :
  let this := constructor None in
  let s1 := cacheService.set this (Some "x") (Some (JStr "v")) 1000 (healthy ∅) in
  let s2 := cacheService.cleanupOldEntries (Some (1 # 10000)%Q) 1010 s1.2 in
  s1.1 = Return true ∧ s2.1 = Return 1
  ∧ (cacheService.has (Some "x") s2.2).1 = Return false.
Proof. repeat split; by vm_compute. Qed.

(** * Further properties of the service *)

(** ** The other calls on a store whose queries succeed *)

Lemma has_healthy (k : string) (t : gmap string Row) :
  k ≠ EmptyString →
  cacheService.has (Some k) (healthy t)
  = (Return (bool_decide (is_Some (t !! k))), healthy t).
Proof.
  intros Hk. unfold cacheService.has. rewrite truthy_nonempty by done.
  run_healthy. by destruct (t !! k).
Qed.

Lemma delete_healthy (k : string) (t : gmap string Row) :
  k ≠ EmptyString →
  cacheService.delete (Some k) (healthy t)
  = (Return (bool_decide (is_Some (t !! k))), healthy (base.delete k t)).
Proof.
  intros Hk. unfold cacheService.delete. rewrite truthy_nonempty by done.
  run_healthy. by destruct (t !! k).
Qed.

Lemma size_healthy (t : gmap string Row) :
  cacheService.size (healthy t) = (Return (Z.of_nat (size t)), healthy t).
Proof. by run_healthy. Qed.

Lemma clear_healthy (t : gmap string Row) :
  cacheService.clear (healthy t) = (Return tt, healthy ∅).
Proof. by run_healthy. Qed.

(** ** Admission of a new key *)

(** X1: a [set] of a non-empty key without a row, while the store holds
    fewer than [maxSize] items, returns [true] and adds the row of the key
    and nothing else: [size()] grows by one and [has] of the key is
    [true]. *)
Theorem set_new_key_admitted (this : CacheService) (k : string) (v : json)
    (now : Z) (t : gmap string Row) :
  k ≠ EmptyString →
  t !! k = None →
  Z.of_nat (size t) < maxSize this →
  let res := cacheService.set this (Some k) (Some v) now (healthy t) in
  res = (Return true,
         healthy (<[k := {| rawValue := JSON.stringify v; timestamp := now |}]> t))
  ∧ (∀ k', k' ≠ k → rows res.2 !! k' = t !! k')
  ∧ (cacheService.size res.2).1 = Return (Z.of_nat (size t) + 1)
  ∧ (cacheService.has (Some k) res.2).1 = Return true.
Proof.
  intros Hk Hnone Hroom res. subst res.
  rewrite set_healthy, Hnone by done.
  destruct (Z.geb_spec (Z.of_nat (size t)) (maxSize this)); [lia |].
  split; [done |]. cbn [fst snd]. split; [| split].
  - intros k' Hne. by rewrite ?rows_healthy, lookup_insert_ne.
  - rewrite size_healthy; simpl. rewrite map_size_insert_None by done.
    f_equal. lia.
  - rewrite has_healthy by done; simpl. by rewrite lookup_insert_eq.
Qed.

(** X2: a [delete] right after a [set] that created the key returns [true]
    and gives back the rows there were before the [set]. *)
Theorem set_new_key_then_delete (this : CacheService) (k : string) (v : json)
    (now : Z) (t : gmap string Row) :
  k ≠ EmptyString →
  t !! k = None →
  (cacheService.set this (Some k) (Some v) now (healthy t)).1 = Return true →
  cacheService.delete (Some k)
    (cacheService.set this (Some k) (Some v) now (healthy t)).2
  = (Return true, healthy t).
Proof.
  intros Hk Hnone Hok. rewrite set_succeeded_healthy by done.
  rewrite delete_healthy by done. rewrite lookup_insert_eq; simpl.
  by rewrite delete_insert_id.
Qed.

(** ** Clearing *)

(** X3: [clear] empties the store whatever it held: afterwards [size()] is
    0, [has] is [false] and [get] is [null] for every key, and a second
    [clear] does the same again. *)
Theorem clear_empties (t : gmap string Row) :
  let res := cacheService.clear (healthy t) in
  res = (Return tt, healthy ∅)
  ∧ (cacheService.size res.2).1 = Return 0
  ∧ (∀ k, k ≠ EmptyString →
       (cacheService.has (Some k) res.2).1 = Return false
       ∧ (cacheService.get (Some k) res.2).1 = Return JNull)
  ∧ cacheService.clear res.2 = res.
Proof.
  intros res. subst res. rewrite clear_healthy. cbn [fst snd].
  split; [done |]. split; [| split].
  - rewrite size_healthy; simpl. by rewrite map_size_empty.
  - intros k Hk. rewrite has_healthy, get_healthy by done.
    by rewrite lookup_empty.
  - apply clear_healthy.
Qed.

(** ** What the calls leave alone *)

(** X4: [get], [has], [size] and [getStats] never change a row, whatever
    their argument and whichever of their queries fail. *)
Theorem reads_leave_rows (this : CacheService) (key : option string)
    (st : Store) :
  rows (cacheService.get key st).2 = rows st
  ∧ rows (cacheService.has key st).2 = rows st
  ∧ rows (cacheService.size st).2 = rows st
  ∧ rows (cacheService.getStats this st).2 = rows st.
Proof.
  repeat apply conj.
  - unfold cacheService.get. destruct (truthy key) as [k|]; [| done].
    unfold_service. step_query; [done |].
    destruct (rows st !! k) as [r|]; simpl; [| done].
    unfold CacheItem_value_get; simpl. by destruct (JSON.parse _).
  - unfold cacheService.has. destruct (truthy key) as [k|]; [| done].
    unfold_service. by step_query.
  - unfold_service. by step_query.
  - unfold_service. by repeat step_query.
Qed.

(** X5: a call that throws has written nothing: when [set], [delete],
    [clear] or [cleanupOldEntries] ends in an error, for whatever reason,
    the rows are those it found. *)
Theorem thrown_leaves_rows (this : CacheService) (key : option string)
    (value : option json) (maxAgeMinutes : option Q) (now : Z) (st : Store) :
  (∀ e, (cacheService.set this key value now st).1 = Throw e →
        rows (cacheService.set this key value now st).2 = rows st)
  ∧ (∀ e, (cacheService.delete key st).1 = Throw e →
        rows (cacheService.delete key st).2 = rows st)
  ∧ (∀ e, (cacheService.clear st).1 = Throw e →
        rows (cacheService.clear st).2 = rows st)
  ∧ (∀ e, (cacheService.cleanupOldEntries maxAgeMinutes now st).1 = Throw e →
        rows (cacheService.cleanupOldEntries maxAgeMinutes now st).2 = rows st).
Proof.
  repeat apply conj; intros e.
  - unfold cacheService.set. destruct (truthy key) as [k|]; [| done].
    destruct value as [v|]; [| done].
    unfold_service. unfold query.
    destruct (failures st) as [|[e1|] [|[e2|] [|[e3|] fs]]]; simpl;
      destruct (rows st !! k) as [r|] eqn:Hr; simpl;
      rewrite ?andb_true_r, ?andb_false_r; simpl;
      repeat match goal with
      | |- context [Z.geb ?a ?b] => destruct (Z.geb a b); simpl
      end;
      rewrite ?Hr; simpl;
      repeat match goal with
      | |- context [String.eqb (message ?a) ?b] =>
          destruct (String.eqb (message a) b); simpl
      end;
      done.
  - unfold cacheService.delete. destruct (truthy key) as [k|]; [| done].
    unfold_service. by step_query.
  - unfold_service. by step_query.
  - unfold cacheService.cleanupOldEntries.
    destruct (Qle_bool _ _); [done |].
    unfold_service. by step_query.
Qed.

(** ** A store that rejects *)

(** X6: when the store rejects the first query of a call, every call but
    [set] throws its own prefix followed by the message of the rejection,
    also when that message is [Cache is full], and leaves the rows alone;
    [getStats] has started its three queries by then. *)
Theorem rejection_is_wrapped (this : CacheService) (k : string) (m : Q)
    (now : Z) (st : Store) (e : Error) (fs : list (option Error)) :
  k ≠ EmptyString →
  (0 < m)%Q →
  failures st = Some e :: fs →
  let rejected := {| rows := rows st; failures := fs |} in
  cacheService.get (Some k) st
    = (Throw {| message := "Failed to get cache value: " +:+ message e |}, rejected)
  ∧ cacheService.delete (Some k) st
    = (Throw {| message := "Failed to delete cache value: " +:+ message e |}, rejected)
  ∧ cacheService.has (Some k) st
    = (Throw {| message := "Failed to check key existence: " +:+ message e |}, rejected)
  ∧ cacheService.size st
    = (Throw {| message := "Failed to get cache size: " +:+ message e |}, rejected)
  ∧ cacheService.clear st
    = (Throw {| message := "Failed to clear cache: " +:+ message e |}, rejected)
  ∧ cacheService.cleanupOldEntries (Some m) now st
    = (Throw {| message := "Failed to cleanup old entries: " +:+ message e |}, rejected)
  ∧ (cacheService.getStats this st).1
    = Throw {| message := "Failed to get cache stats: " +:+ message e |}
  ∧ rows (cacheService.getStats this st).2 = rows st.
Proof.
  intros Hk Hm Hfs rejected. subst rejected.
  assert (Hq : ∀ A (q : gmap string Row → completion A * gmap string Row),
             query q st = (Throw e, {| rows := rows st; failures := fs |})).
  { intros A q. unfold query. by rewrite Hfs. }
  repeat apply conj.
  - unfold cacheService.get. rewrite truthy_nonempty by done.
    unfold_service. by rewrite Hq.
  - unfold cacheService.delete. rewrite truthy_nonempty by done.
    unfold_service. by rewrite Hq.
  - unfold cacheService.has. rewrite truthy_nonempty by done.
    unfold_service. by rewrite Hq.
  - unfold_service. by rewrite Hq.
  - unfold_service. by rewrite Hq.
  - unfold cacheService.cleanupOldEntries; simpl.
    destruct (Qle_bool m 0) eqn:Hle.
    { apply Qle_bool_iff in Hle. by apply Qlt_not_le in Hm. }
    unfold_service. by rewrite Hq.
  - unfold_service. rewrite Hq. by repeat step_query.
  - unfold_service. rewrite Hq. by repeat step_query.
Qed.

(** ** The cutoff of a cleanup *)

Lemma new_Date_le (tv : Q) (z : Z) : (tv <= inject_Z z)%Q → new_Date tv ≤ z.
Proof.
  destruct tv as [n d]. unfold Qle, new_Date; simpl. rewrite Z.mul_1_r.
  intros H.
  pose proof (Z.quot_rem' n (Z.pos d)) as Hqr.
  pose proof (Z.rem_bound_abs n (Z.pos d) ltac:(lia)) as Habs.
  destruct (Z.le_gt_cases 0 n) as [Hn|Hn].
  - pose proof (Z.rem_nonneg n (Z.pos d) ltac:(lia) Hn). nia.
  - pose proof (Z.rem_nonpos n (Z.pos d) ltac:(lia) ltac:(lia)). nia.
Qed.

Lemma new_Date_ge (tv : Q) (z : Z) : (inject_Z z <= tv)%Q → z ≤ new_Date tv.
Proof.
  destruct tv as [n d]. unfold Qle, new_Date; simpl. rewrite Z.mul_1_r.
  intros H.
  pose proof (Z.quot_rem' n (Z.pos d)) as Hqr.
  pose proof (Z.rem_bound_abs n (Z.pos d) ltac:(lia)) as Habs.
  destruct (Z.le_gt_cases 0 n) as [Hn|Hn].
  - pose proof (Z.rem_nonneg n (Z.pos d) ltac:(lia) Hn). nia.
  - pose proof (Z.rem_nonpos n (Z.pos d) ltac:(lia) ltac:(lia)). nia.
Qed.

(** X7: where the age in milliseconds and the instant of the call are within
    the range of [Date], a cleanup with a positive age keeps, unchanged,
    every row whose timestamp is not earlier than
    [now - maxAgeMinutes * 60000]: the clipping of the cutoff to a whole
    millisecond never costs a row that is young enough. *)
Theorem cleanupOldEntries_keeps_recent (m : Q) (now : Z) (t : gmap string Row)
    (k : string) (r : Row) :
  is_double m →
  (0 < m)%Q →
  (m * 60000 <= inject_Z MAX_TIME)%Q →
  0 ≤ now ≤ MAX_TIME →
  0 ≤ timestamp r →
  t !! k = Some r →
  (inject_Z now - m * 60000 <= inject_Z (timestamp r))%Q →
  rows (cacheService.cleanupOldEntries (Some m) now (healthy t)).2 !! k = Some r.
Proof.
  intros _ Hm _ _ _ Hr Hrecent. rewrite cleanupOldEntries_healthy.
  destruct (Qle_bool m 0) eqn:Hle.
  { apply Qle_bool_iff in Hle. by apply Qlt_not_le in Hm. }
  cbn [snd]. rewrite rows_healthy. apply map_lookup_filter_Some.
  split; [done |]. cbn [snd]. apply new_Date_le in Hrecent. lia.
Qed.

(** X8: a cleanup with a positive age removes every row that is a whole
    millisecond or more earlier than [now - maxAgeMinutes * 60000]. *)
Theorem cleanupOldEntries_removes_stale (m : Q) (now : Z) (t : gmap string Row)
    (k : string) (r : Row) :
  (0 < m)%Q →
  t !! k = Some r →
  (inject_Z (timestamp r + 1) <= inject_Z now - m * 60000)%Q →
  rows (cacheService.cleanupOldEntries (Some m) now (healthy t)).2 !! k = None.
Proof.
  intros Hm Hr Hstale. rewrite cleanupOldEntries_healthy.
  destruct (Qle_bool m 0) eqn:Hle.
  { apply Qle_bool_iff in Hle. by apply Qlt_not_le in Hm. }
  cbn [snd]. rewrite rows_healthy. apply map_lookup_filter_None.
  right. intros r' Hr'. rewrite Hr in Hr'. injection Hr' as <-.
  cbn [snd]. apply new_Date_ge in Hstale. lia.
Qed.

(** X9: a second cleanup at the same instant with the same age finds
    nothing to remove: it returns 0 and leaves the store as the first left
    it. *)
Theorem cleanupOldEntries_again (m : Q) (now : Z) (t : gmap string Row) :
  (0 < m)%Q →
  let first := cacheService.cleanupOldEntries (Some m) now (healthy t) in
  cacheService.cleanupOldEntries (Some m) now first.2 = (Return 0, first.2).
Proof.
  intros Hm first. subst first. rewrite cleanupOldEntries_healthy.
  destruct (Qle_bool m 0) eqn:Hle.
  { apply Qle_bool_iff in Hle. by apply Qlt_not_le in Hm. }
  cbn [snd]. rewrite cleanupOldEntries_healthy, Hle. cbn zeta.
  set (cutoff := new_Date _).
  assert (Hnone : filter (λ kr : string * Row, timestamp kr.2 < cutoff)
                    (filter (λ kr : string * Row, ¬ timestamp kr.2 < cutoff) t)
                  = ∅).
  { apply map_empty; intros j. apply map_lookup_filter_None. right.
    intros r [_ Hr]%map_lookup_filter_Some. done. }
  assert (Hall : filter (λ kr : string * Row, ¬ timestamp kr.2 < cutoff)
                   (filter (λ kr : string * Row, ¬ timestamp kr.2 < cutoff) t)
                 = filter (λ kr : string * Row, ¬ timestamp kr.2 < cutoff) t).
  { apply map_filter_id. by intros j r [_ Hr]%map_lookup_filter_Some. }
  by rewrite Hnone, Hall, map_size_empty.
Qed.

(** ** Statistics and admission *)

(** X10: the [remainingSpace] and [totalItems] that [getStats] reports tell
    what [set] and [size] do next: [totalItems] is what [size()] returns, and
    a key without a row is refused with [Cache is full] exactly when
    [remainingSpace] is 0, and admitted exactly when it is positive. *)
Theorem remainingSpace_tells_admission (this : CacheService) (k : string)
    (v : json) (now : Z) (t : gmap string Row) :
  k ≠ EmptyString →
  t !! k = None →
  ∃ s : Stats,
    (cacheService.getStats this (healthy t)).1 = Return s
    ∧ (cacheService.size (healthy t)).1 = Return (totalItems s)
    ∧ (remainingSpace s = 0
       ↔ (cacheService.set this (Some k) (Some v) now (healthy t)).1
         = Throw Cache_is_full)
    ∧ (0 < remainingSpace s
       ↔ (cacheService.set this (Some k) (Some v) now (healthy t)).1
         = Return true).
Proof.
  intros Hk Hnone. eexists. rewrite getStats_healthy, size_healthy.
  split; [done |]. cbn [fst totalItems remainingSpace]. split; [done |].
  rewrite set_healthy, Hnone by done.
  destruct (Z.geb_spec (Z.of_nat (size t)) (maxSize this)); cbn [fst];
    split; split; intros ?; try done; lia.
Qed.

(** X11: [get] and [has] agree on every key but one that stores [null]: a
    [get] that returns anything but [null] means that [has] is [true], and
    where [has] is [false], [get] returns [null]. *)
Theorem get_value_means_has (k : string) (t : gmap string Row) :
  k ≠ EmptyString →
  (∀ v, (cacheService.get (Some k) (healthy t)).1 = Return v → v ≠ JNull →
        (cacheService.has (Some k) (healthy t)).1 = Return true)
  ∧ ((cacheService.has (Some k) (healthy t)).1 = Return false →
     (cacheService.get (Some k) (healthy t)).1 = Return JNull).
Proof.
  intros Hk. rewrite get_healthy, has_healthy by done.
  destruct (t !! k) as [r|]; cbn [fst]; split; try done.
  intros v [= <-] Hv. done.
Qed.

(** ** The configured capacity *)

(** X12: whatever [parseInt] made of [MAX_CACHE_SIZE], as long as it is not
    negative (not a number, 0, or a positive size), the empty store admits a
    first key: there is no way to configure a capacity of 0. *)
Theorem constructor_admits_first_key (parsed : option Z) (k : string)
    (v : json) (now : Z) :
  k ≠ EmptyString →
  (∀ n, parsed = Some n → 0 ≤ n) →
  0 < maxSize (constructor parsed)
  ∧ (cacheService.set (constructor parsed) (Some k) (Some v) now (healthy ∅)).1
    = Return true.
Proof.
  intros Hk Hparsed.
  assert (Hpos : 0 < maxSize (constructor parsed)).
  { destruct parsed as [[|p|p]|]; simpl; try lia.
    specialize (Hparsed _ eq_refl). lia. }
  split; [done |]. rewrite set_healthy, lookup_empty, map_size_empty by done.
  by destruct (Z.geb_spec (Z.of_nat 0) (maxSize (constructor parsed))); [lia |].
Qed.

(** X13: with a negative [MAX_CACHE_SIZE] the service admits nothing: every
    [set] of a key without a row is refused with [Cache is full], on the
    empty store too, while keys that have a row can still be updated. *)
Theorem constructor_negative_refuses (n : Z) (k : string) (v : json) (now : Z)
    (t : gmap string Row) :
  n < 0 →
  k ≠ EmptyString →
  cacheService.set (constructor (Some n)) (Some k) (Some v) now (healthy t)
  = match t !! k with
    | None => (Throw Cache_is_full, healthy t)
    | Some _ =>
        (Return true,
         healthy (<[k := {| rawValue := JSON.stringify v; timestamp := now |}]> t))
    end.
Proof.
  intros Hn Hk. rewrite set_healthy by done.
  destruct (t !! k); [done |].
  assert (maxSize (constructor (Some n)) = n) as -> by by destruct n.
  by destruct (Z.geb_spec (Z.of_nat (size t)) n); [| lia].
Qed.

(** ** Writing and cleaning *)

(** X16: an item written by a successful [set] outlives every cleanup made
    before its age has passed: where the age in milliseconds and the
    instants of the two calls are within the range of [Date], if
    [later - maxAgeMinutes * 60000] is not after the instant of the [set],
    then after the cleanup at [later] the row of the key is the one that
    [set] wrote and [has] of the key is [true]. *)
Theorem set_then_cleanup_keeps {Value : Type} {codec : Codec Value}
    (this : CacheService) (k : string) (v : Value)
    (now later : Z) (m : Q) (t : gmap string Row) :
  k ≠ EmptyString →
  is_double m →
  (0 < m)%Q →
  (m * 60000 <= inject_Z MAX_TIME)%Q →
  0 ≤ now →
  0 ≤ later ≤ MAX_TIME →
  (inject_Z later - m * 60000 <= inject_Z now)%Q →
  (cacheService.set this (Some k) (Some v) now (healthy t)).1 = Return true →
  let written := (cacheService.set this (Some k) (Some v) now (healthy t)).2 in
  let cleaned := (cacheService.cleanupOldEntries (Some m) later written).2 in
  rows cleaned !! k = Some {| rawValue := JSON_stringify v; timestamp := now |}
  ∧ (cacheService.has (Some k) cleaned).1 = Return true.
Proof.
  intros Hk _ Hm _ _ _ Hage Hok written cleaned. subst written cleaned.
  rewrite set_succeeded_healthy by done.
  set (row := {| rawValue := JSON_stringify v; timestamp := now |}).
  pose proof (cleanupOldEntries_healthy m later (<[k := row]> t)) as Hc.
  destruct (Qle_bool m 0) eqn:Hle.
  { apply Qle_bool_iff in Hle. by apply Qlt_not_le in Hm. }
  rewrite Hc. cbn [snd].
  assert (Hrow : filter (λ kr : string * Row,
                    ¬ timestamp kr.2 < new_Date (inject_Z later - m * 60000)%Q)
                   (<[k := row]> t) !! k = Some row).
  { apply map_lookup_filter_Some. split; [by rewrite lookup_insert_eq |].
    cbn [snd]. apply new_Date_le in Hage. simpl. lia. }
  rewrite rows_healthy. split; [done |].
  rewrite has_healthy by done. by rewrite Hrow.
Qed.

(** * Properties of the routes *)

Ltac unfold_routes :=
  unfold cacheRouter.post_root, cacheRouter.get_stats, cacheRouter.post_cleanup,
    cacheRouter.get_key, cacheRouter.delete_key, cacheRouter.delete_root,
    try_catch, mbind, Async_bind, bind, ret.

(** What [POST /] replies, with a valid body, on a store whose queries
    succeed. *)
Lemma post_root_healthy (this : CacheService) (k : string) (v : json) (now : Z)
    (t : gmap string Row) :
  k ≠ EmptyString →
  cacheRouter.post_root this (Some k) (Some v) now (healthy t)
  = match (cacheService.set this (Some k) (Some v) now (healthy t)).1 with
    | Return _ =>
        (Return (cacheRouter.Json 201
           (cacheRouter.Success (Some "Stored successfully")
                                (Some (cacheRouter.DataKey k)))),
         healthy (<[k := {| rawValue := JSON.stringify v; timestamp := now |}]> t))
    | Throw _ =>
        (Return (cacheRouter.Json 507
                   (cacheRouter.Failure "Storage Error" "Cache is full")),
         healthy t)
    end.
Proof.
  intros Hk. unfold_routes. rewrite truthy_nonempty by done.
  rewrite set_healthy by done.
  destruct (t !! k); [done |].
  by destruct (Z.of_nat (size t) >=? maxSize this).
Qed.

(** What [GET /:key] replies on a store whose queries succeed. *)
Lemma get_key_healthy (k : string) (t : gmap string Row) :
  k ≠ EmptyString →
  cacheRouter.get_key (Some k) (healthy t)
  = match (cacheService.get (Some k) (healthy t)).1 with
    | Return JNull =>
        (Return (cacheRouter.Json 404
                   (cacheRouter.Failure "Not Found" "Key not found")),
         healthy t)
    | Return value =>
        (Return (cacheRouter.Json 200
           (cacheRouter.Success None (Some (cacheRouter.DataKeyValue k value)))),
         healthy t)
    | Throw error => (Return (cacheRouter.Next error), healthy t)
    end.
Proof.
  intros Hk. unfold_routes. rewrite truthy_nonempty by done.
  rewrite get_healthy by done.
  destruct (t !! k) as [r|]; [| done]. json_codec.
  destruct (JSON.parse (rawValue r)) as [[]|]; done.
Qed.

(** X17: [POST /] with a key that is empty or absent, or without a value,
    replies 400 before anything is asked of the store: neither the rows nor
    the queries to come are touched. *)
Theorem post_root_rejects_invalid (this : CacheService) (key : option string)
    (value : option json) (now : Z) (st : Store) :
  truthy key = None ∨ value = None →
  cacheRouter.post_root this key value now st
  = (Return (cacheRouter.Json 400
       (cacheRouter.Failure "Validation Error" "Key and value are required")),
     st).
Proof.
  intros [H | ->]; unfold_routes.
  - by rewrite H.
  - by destruct (truthy key).
Qed.

(** X18: [POST /] with a non-empty key and a value replies 507 and writes
    nothing when the key has no row and the store holds [maxSize] items or
    more; in every other case it replies 201 with the key and the row of
    the key holds the text of the value. *)
Theorem post_root_replies (this : CacheService) (k : string) (v : json)
    (now : Z) (t : gmap string Row) :
  k ≠ EmptyString →
  (t !! k = None ∧ maxSize this ≤ Z.of_nat (size t) →
     cacheRouter.post_root this (Some k) (Some v) now (healthy t)
     = (Return (cacheRouter.Json 507
          (cacheRouter.Failure "Storage Error" "Cache is full")), healthy t))
  ∧ (is_Some (t !! k) ∨ Z.of_nat (size t) < maxSize this →
     cacheRouter.post_root this (Some k) (Some v) now (healthy t)
     = (Return (cacheRouter.Json 201
          (cacheRouter.Success (Some "Stored successfully")
                               (Some (cacheRouter.DataKey k)))),
        healthy (<[k := {| rawValue := JSON.stringify v; timestamp := now |}]> t))).
Proof.
  intros Hk. rewrite post_root_healthy, set_healthy by done. split.
  - intros [-> Hfull].
    by destruct (Z.geb_spec (Z.of_nat (size t)) (maxSize this)); [| lia].
  - intros [[r ->] | Hroom]; [done |].
    destruct (t !! k); [done |].
    by destruct (Z.geb_spec (Z.of_nat (size t)) (maxSize this)); [lia |].
Qed.


(** X20: for a non-empty key without a row, [GET /:key] and [DELETE /:key]
    both reply 404 and leave the store as it was; for a key with a row,
    [DELETE /:key] replies 200 with the key, removes that row only, and a
    [GET /:key] of the key replies 404 from then on. *)
Theorem delete_key_replies (k : string) (t : gmap string Row) :
  k ≠ EmptyString →
  let not_found :=
    Return (cacheRouter.Json 404 (cacheRouter.Failure "Not Found" "Key not found")) in
  (t !! k = None →
     cacheRouter.get_key (Some k) (healthy t) = (not_found, healthy t)
     ∧ cacheRouter.delete_key (Some k) (healthy t) = (not_found, healthy t))
  ∧ (is_Some (t !! k) →
     cacheRouter.delete_key (Some k) (healthy t)
     = (Return (cacheRouter.Json 200
          (cacheRouter.Success (Some "Deleted successfully")
                               (Some (cacheRouter.DataKey k)))),
        healthy (base.delete k t))
     ∧ (cacheRouter.get_key (Some k)
          (cacheRouter.delete_key (Some k) (healthy t)).2).1 = not_found).
Proof.
  intros Hk not_found. subst not_found.
  assert (Hdel : cacheRouter.delete_key (Some k) (healthy t)
    = (Return (if bool_decide (is_Some (t !! k))
               then cacheRouter.Json 200
                      (cacheRouter.Success (Some "Deleted successfully")
                                           (Some (cacheRouter.DataKey k)))
               else cacheRouter.Json 404
                      (cacheRouter.Failure "Not Found" "Key not found")),
       healthy (base.delete k t))).
  { unfold_routes. rewrite truthy_nonempty by done.
    rewrite delete_healthy by done. by destruct (bool_decide _). }
  split.
  - intros Hnone. rewrite get_key_healthy, get_healthy, Hdel by done.
    rewrite Hnone. cbn. by rewrite delete_id.
  - intros [r Hr]. rewrite Hdel, Hr. cbn. split; [done |].
    rewrite get_key_healthy, get_healthy by done.
    by rewrite lookup_delete_eq.
Qed.

(** X21: [POST /cleanup] does not check the age itself and has no reply of
    its own for an age that is zero or negative: the error of the service
    goes to [next], and nothing is removed. *)
Theorem post_cleanup_invalid_age (m : Q) (now : Z) (st : Store) :
  (m <= 0)%Q →
  cacheRouter.post_cleanup (Some m) now st
  = (Return (cacheRouter.Next
       {| message := "Failed to cleanup old entries: Max age must be positive" |}),
     st).
Proof.
  intros Hm. unfold_routes. cbn [default].
  by rewrite cleanupOldEntries_invalid_age.
Qed.

(** X22: [POST /cleanup] without a [maxAgeMinutes] cleans with an age of 60
    minutes: it removes exactly the rows stamped earlier than
    [now - 3600000] and replies 200 with their number. *)
Theorem post_cleanup_default (now : Z) (t : gmap string Row) :
  let older := λ kr : string * Row, timestamp kr.2 < now - 3600000 in
  cacheRouter.post_cleanup None now (healthy t)
  = (Return (cacheRouter.Json 200
       (cacheRouter.Success (Some "Cleanup completed")
          (Some (cacheRouter.DataDeletedCount (Z.of_nat (size (filter older t))))))),
     healthy (filter (λ kr, ¬ older kr) t)).
Proof.
  intros older. subst older. unfold_routes. cbn [default].
  rewrite cleanupOldEntries_healthy.
  change (Qle_bool 60 0) with false. cbn zeta.
  rewrite (new_Date_whole _ (now - 3600000)); [done |].
  unfold Qeq; simpl. lia.
Qed.

(** X23: [DELETE /] replies 200 and empties the store, and the [GET /stats]
    that follows reports no item, no oldest and no newest timestamp, and
    the whole capacity as remaining. *)
Theorem delete_root_then_stats (this : CacheService) (t : gmap string Row) :
  cacheRouter.delete_root (healthy t)
  = (Return (cacheRouter.Json 200
       (cacheRouter.Success (Some "Cache cleared successfully") None)),
     healthy ∅)
  ∧ cacheRouter.get_stats this (cacheRouter.delete_root (healthy t)).2
    = (Return (cacheRouter.Json 200
         (cacheRouter.Success None
            (Some (cacheRouter.DataStats
               {| totalItems := 0;
                  oldestItemTimestamp := None;
                  newestItemTimestamp := None;
                  stats_maxSize := maxSize this;
                  remainingSpace := Z.max 0 (maxSize this) |})))),
       healthy ∅).
Proof.
  assert (Hclear : cacheRouter.delete_root (healthy t)
    = (Return (cacheRouter.Json 200
         (cacheRouter.Success (Some "Cache cleared successfully") None)),
       healthy ∅)).
  { unfold_routes. by rewrite clear_healthy. }
  split; [done |]. rewrite Hclear. cbn [snd]. unfold_routes.
  rewrite getStats_healthy. rewrite map_to_list_empty, map_size_empty.
  cbn. by rewrite Z.sub_0_r.
Qed.

(** When the schedule starts with a rejection, so does every query. *)
Lemma query_rejected {A} (q : gmap string Row → completion A * gmap string Row)
    (st : Store) (e : Error) (fs : list (option Error)) :
  failures st = Some e :: fs →
  query q st = (Throw e, {| rows := rows st; failures := fs |}).
Proof. intros Hfs. unfold query. by rewrite Hfs. Qed.

(** X24: a rejection of the store never ends in a reply of success or of
    [Not Found]: with a valid request, when the first query is rejected,
    [GET /:key], [DELETE /:key], [DELETE /], [POST /cleanup] and [GET /stats]
    hand the wrapped error to [next], and so does [POST /] unless the
    message of the rejection is [Cache is full], which it answers with
    507. *)
Theorem routes_pass_rejections_on (this : CacheService) (k : string)
    (v : json) (m : Q) (now : Z) (st : Store) (e : Error)
    (fs : list (option Error)) :
  k ≠ EmptyString →
  (0 < m)%Q →
  failures st = Some e :: fs →
  let next prefix :=
    Return (cacheRouter.Next {| message := prefix +:+ message e |}) in
  (cacheRouter.get_key (Some k) st).1 = next "Failed to get cache value: "
  ∧ (cacheRouter.delete_key (Some k) st).1 = next "Failed to delete cache value: "
  ∧ (cacheRouter.delete_root st).1 = next "Failed to clear cache: "
  ∧ (cacheRouter.post_cleanup (Some m) now st).1
    = next "Failed to cleanup old entries: "
  ∧ (cacheRouter.get_stats this st).1 = next "Failed to get cache stats: "
  ∧ (cacheRouter.post_root this (Some k) (Some v) now st).1
    = if String.eqb (message e) "Cache is full"
      then Return (cacheRouter.Json 507
                     (cacheRouter.Failure "Storage Error" "Cache is full"))
      else next "Failed to set cache value: ".
Proof.
  intros Hk Hm Hfs next. subst next.
  pose proof (λ A q, @query_rejected A q st e fs Hfs) as Hq.
  repeat apply conj.
  - unfold_routes. rewrite truthy_nonempty by done.
    unfold cacheService.get. rewrite truthy_nonempty by done.
    unfold_service. by rewrite Hq.
  - unfold_routes. rewrite truthy_nonempty by done.
    unfold cacheService.delete. rewrite truthy_nonempty by done.
    unfold_service. by rewrite Hq.
  - unfold_routes. unfold_service. by rewrite Hq.
  - unfold_routes. cbn [default]. unfold cacheService.cleanupOldEntries; simpl.
    destruct (Qle_bool m 0) eqn:Hle.
    { apply Qle_bool_iff in Hle. by apply Qlt_not_le in Hm. }
    unfold_service. by rewrite Hq.
  - unfold_routes. unfold_service. rewrite Hq. by repeat step_query.
  - unfold_routes. rewrite truthy_nonempty by done.
    rewrite (set_first_query_rejected this k v now st e fs) by done.
    unfold set_rethrown.
    destruct (String.eqb (message e) "Cache is full") eqn:He; cbn.
    + by rewrite He.
    + by destruct (String.eqb _ "Cache is full") eqn:He'.
Qed.

(** ** The further properties at concrete calls *)

Lemma set_new_key_admitted_witness :
  let this := {| maxSize := 2 |} in
  let t : gmap string Row := {[ "a" := {| rawValue := "1"; timestamp := 5 |} ]} in
  "b" ≠ EmptyString ∧ t !! "b" = None ∧ Z.of_nat (size t) < maxSize this
  ∧ (cacheService.size
       (cacheService.set this (Some "b") (Some (JBool true)) 7 (healthy t)).2).1
    = Return (Z.of_nat (size t) + 1).
Proof.
  intros this t.
  assert (H1 : "b" ≠ EmptyString) by discriminate.
  assert (H2 : t !! "b" = None) by reflexivity.
  assert (H3 : Z.of_nat (size t) < maxSize this) by reflexivity.
  destruct (set_new_key_admitted this "b" (JBool true) 7 t H1 H2 H3)
    as (_ & _ & Hsize & _).
  exact (conj H1 (conj H2 (conj H3 Hsize))).
Defined.

Lemma set_new_key_then_delete_witness :
  let this := {| maxSize := 2 |} in
  let t : gmap string Row := {[ "a" := {| rawValue := "1"; timestamp := 5 |} ]} in
  "b" ≠ EmptyString ∧ t !! "b" = None
  ∧ (cacheService.set this (Some "b") (Some (JNum 2)) 7 (healthy t)).1 = Return true
  ∧ cacheService.delete (Some "b")
      (cacheService.set this (Some "b") (Some (JNum 2)) 7 (healthy t)).2
    = (Return true, healthy t).
Proof.
  intros this t.
  assert (H1 : "b" ≠ EmptyString) by discriminate.
  assert (H2 : t !! "b" = None) by reflexivity.
  assert (H3 : (cacheService.set this (Some "b") (Some (JNum 2)) 7 (healthy t)).1
               = Return true) by (vm_compute; reflexivity).
  exact (conj H1 (conj H2 (conj H3
           (set_new_key_then_delete this "b" (JNum 2) 7 t H1 H2 H3)))).
Defined.

Lemma clear_empties_witness :
  let t : gmap string Row := {[ "a" := {| rawValue := "1"; timestamp := 5 |} ]} in
  "a" ≠ EmptyString
  ∧ (cacheService.has (Some "a") (cacheService.clear (healthy t)).2).1
    = Return false.
Proof.
  intros t.
  assert (H1 : "a" ≠ EmptyString) by discriminate.
  destruct (clear_empties t) as (_ & _ & Hkeys & _).
  exact (conj H1 (proj1 (Hkeys "a" H1))).
Defined.

Lemma thrown_leaves_rows_witness :
  let this := {| maxSize := 2 |} in
  let e := {| message := "SQLITE_BUSY: database is locked" |} in
  let st := {| rows := {[ "a" := {| rawValue := "1"; timestamp := 5 |} ]};
               failures := [None; None; Some e] |} in
  (cacheService.set this (Some "b") (Some (JNum 2)) 7 st).1
    = Throw {| message := "Failed to set cache value: SQLITE_BUSY: database is locked" |}
  ∧ rows (cacheService.set this (Some "b") (Some (JNum 2)) 7 st).2 = rows st.
Proof.
  intros this e st.
  assert (H1 : (cacheService.set this (Some "b") (Some (JNum 2)) 7 st).1
    = Throw {| message := "Failed to set cache value: SQLITE_BUSY: database is locked" |})
    by (vm_compute; reflexivity).
  destruct (thrown_leaves_rows this (Some "b") (Some (JNum 2)) None 7 st)
    as (Hset & _).
  exact (conj H1 (Hset _ H1)).
Defined.

Lemma rejection_is_wrapped_witness :
  let e := {| message := "Cache is full" |} in
  let st := {| rows := {[ "a" := {| rawValue := "1"; timestamp := 5 |} ]};
               failures := [Some e] |} in
  "a" ≠ EmptyString ∧ (0 < 1)%Q ∧ failures st = [Some e]
  ∧ cacheService.get (Some "a") st
    = (Throw {| message := "Failed to get cache value: Cache is full" |},
       {| rows := rows st; failures := [] |}).
Proof.
  intros e st.
  assert (H1 : "a" ≠ EmptyString) by discriminate.
  assert (H2 : (0 < 1)%Q) by reflexivity.
  assert (H3 : failures st = [Some e]) by reflexivity.
  destruct (rejection_is_wrapped {| maxSize := 1 |} "a" 1 7 st e [] H1 H2 H3)
    as (Hget & _).
  exact (conj H1 (conj H2 (conj H3 Hget))).
Defined.

Lemma cleanupOldEntries_keeps_recent_witness :
  let r := {| rawValue := "1"; timestamp := 1699999999883 |} in
  let t : gmap string Row := {[ "x" := r ]} in
  is_double (1 # 512) ∧ (0 < 1 # 512)%Q
  ∧ ((1 # 512) * 60000 <= inject_Z MAX_TIME)%Q
  ∧ 0 ≤ 1700000000000 ≤ MAX_TIME
  ∧ 0 ≤ timestamp r
  ∧ t !! "x" = Some r
  ∧ (inject_Z 1700000000000 - (1 # 512) * 60000 <= inject_Z (timestamp r))%Q
  ∧ rows (cacheService.cleanupOldEntries (Some (1 # 512)%Q) 1700000000000
            (healthy t)).2 !! "x" = Some r.
Proof.
  intros r t.
  assert (H0 : is_double (1 # 512))
    by (exists 1, (-9);
        split; [reflexivity | split; [split; discriminate | reflexivity]]).
  assert (H1 : (0 < 1 # 512)%Q) by reflexivity.
  assert (Hage : ((1 # 512) * 60000 <= inject_Z MAX_TIME)%Q) by discriminate.
  assert (Hnow : 0 ≤ 1700000000000 ≤ MAX_TIME) by (split; discriminate).
  assert (Hts : 0 ≤ timestamp r) by discriminate.
  assert (H2 : t !! "x" = Some r) by reflexivity.
  assert (H3 : (inject_Z 1700000000000 - (1 # 512) * 60000
                <= inject_Z (timestamp r))%Q) by (vm_compute; discriminate).
  exact (conj H0 (conj H1 (conj Hage (conj Hnow (conj Hts (conj H2 (conj H3
           (cleanupOldEntries_keeps_recent (1 # 512) 1700000000000 t "x" r
              H0 H1 Hage Hnow Hts H2 H3)))))))).
Defined.

Lemma cleanupOldEntries_removes_stale_witness :
  let r := {| rawValue := "1"; timestamp := 1699999999881 |} in
  let t : gmap string Row := {[ "x" := r ]} in
  (0 < 1 # 512)%Q ∧ t !! "x" = Some r
  ∧ (inject_Z (timestamp r + 1) <= inject_Z 1700000000000 - (1 # 512) * 60000)%Q
  ∧ rows (cacheService.cleanupOldEntries (Some (1 # 512)%Q) 1700000000000
            (healthy t)).2 !! "x" = None.
Proof.
  intros r t.
  assert (H1 : (0 < 1 # 512)%Q) by reflexivity.
  assert (H2 : t !! "x" = Some r) by reflexivity.
  assert (H3 : (inject_Z (timestamp r + 1)
                <= inject_Z 1700000000000 - (1 # 512) * 60000)%Q)
    by (vm_compute; discriminate).
  exact (conj H1 (conj H2 (conj H3
           (cleanupOldEntries_removes_stale (1 # 512) 1700000000000 t "x" r
              H1 H2 H3)))).
Defined.

Lemma cleanupOldEntries_again_witness :
  let t : gmap string Row :=
    {[ "a" := {| rawValue := "1"; timestamp := 39999 |};
       "b" := {| rawValue := "2"; timestamp := 40000 |} ]} in
  let first := cacheService.cleanupOldEntries (Some 1%Q) 100000 (healthy t) in
  (0 < 1)%Q ∧ first.1 = Return 1
  ∧ cacheService.cleanupOldEntries (Some 1%Q) 100000 first.2 = (Return 0, first.2).
Proof.
  intros t first.
  assert (H1 : (0 < 1)%Q) by reflexivity.
  assert (H2 : first.1 = Return 1) by (vm_compute; reflexivity).
  exact (conj H1 (conj H2 (cleanupOldEntries_again 1 100000 t H1))).
Defined.

Lemma remainingSpace_tells_admission_witness :
  let this := {| maxSize := 1 |} in
  let t : gmap string Row := {[ "a" := {| rawValue := "1"; timestamp := 5 |} ]} in
  "b" ≠ EmptyString ∧ t !! "b" = None
  ∧ ∃ s : Stats,
      (cacheService.getStats this (healthy t)).1 = Return s
      ∧ (remainingSpace s = 0
         ↔ (cacheService.set this (Some "b") (Some JNull) 7 (healthy t)).1
           = Throw Cache_is_full).
Proof.
  intros this t.
  assert (H1 : "b" ≠ EmptyString) by discriminate.
  assert (H2 : t !! "b" = None) by reflexivity.
  destruct (remainingSpace_tells_admission this "b" JNull 7 t H1 H2)
    as (s & Hs & _ & Hfull & _).
  exact (conj H1 (conj H2 (ex_intro _ s (conj Hs Hfull)))).
Defined.

Lemma get_value_means_has_witness :
  let t : gmap string Row := {[ "a" := {| rawValue := "[1]"; timestamp := 5 |} ]} in
  "a" ≠ EmptyString
  ∧ (cacheService.get (Some "a") (healthy t)).1 = Return (JArr [JNum 1])
  ∧ (cacheService.has (Some "a") (healthy t)).1 = Return true.
Proof.
  intros t.
  assert (H1 : "a" ≠ EmptyString) by discriminate.
  assert (H2 : (cacheService.get (Some "a") (healthy t)).1
               = Return (JArr [JNum 1])) by (vm_compute; reflexivity).
  assert (H3 : JArr [JNum 1] ≠ JNull) by discriminate.
  exact (conj H1 (conj H2 (proj1 (get_value_means_has "a" t H1) _ H2 H3))).
Defined.

Lemma constructor_admits_first_key_witness :
  "a" ≠ EmptyString ∧ (∀ n : Z, Some 0 = Some n → 0 ≤ n)
  ∧ 0 < maxSize (constructor (Some 0))
  ∧ (cacheService.set (constructor (Some 0)) (Some "a") (Some (JNum 1)) 7
       (healthy ∅)).1 = Return true.
Proof.
  assert (H1 : "a" ≠ EmptyString) by discriminate.
  assert (H2 : ∀ n : Z, Some 0 = Some n → 0 ≤ n).
  { intros n Hn. injection Hn as <-. discriminate. }
  exact (conj H1 (conj H2
           (constructor_admits_first_key (Some 0) "a" (JNum 1) 7 H1 H2))).
Defined.

Lemma constructor_negative_refuses_witness :
  -5 < 0 ∧ "a" ≠ EmptyString
  ∧ cacheService.set (constructor (Some (-5))) (Some "a") (Some (JNum 1)) 7
      (healthy ∅)
    = (Throw Cache_is_full, healthy ∅).
Proof.
  assert (H1 : -5 < 0) by reflexivity.
  assert (H2 : "a" ≠ EmptyString) by discriminate.
  exact (conj H1 (conj H2
           (constructor_negative_refuses (-5) "a" (JNum 1) 7 ∅ H1 H2))).
Defined.

Lemma set_then_cleanup_keeps_witness :
  let this := {| maxSize := 2 |} in
  let written :=
    (cacheService.set this (Some "x") (Some (JStr "v")) 1000 (healthy ∅)).2 in
  "x" ≠ EmptyString ∧ is_double (1 # 8) ∧ (0 < 1 # 8)%Q
  ∧ ((1 # 8) * 60000 <= inject_Z MAX_TIME)%Q
  ∧ 0 ≤ 1000 ∧ 0 ≤ 8000 ≤ MAX_TIME
  ∧ (inject_Z 8000 - (1 # 8) * 60000 <= inject_Z 1000)%Q
  ∧ (cacheService.set this (Some "x") (Some (JStr "v")) 1000 (healthy ∅)).1
    = Return true
  ∧ (cacheService.has (Some "x")
       (cacheService.cleanupOldEntries (Some (1 # 8)%Q) 8000 written).2).1
    = Return true.
Proof.
  intros this written.
  assert (H1 : "x" ≠ EmptyString) by discriminate.
  assert (H0 : is_double (1 # 8))
    by (exists 1, (-3);
        split; [reflexivity | split; [split; discriminate | reflexivity]]).
  assert (H2 : (0 < 1 # 8)%Q) by reflexivity.
  assert (Hage : ((1 # 8) * 60000 <= inject_Z MAX_TIME)%Q) by discriminate.
  assert (Hnow : 0 ≤ 1000) by discriminate.
  assert (Hlater : 0 ≤ 8000 ≤ MAX_TIME) by (split; discriminate).
  assert (H3 : (inject_Z 8000 - (1 # 8) * 60000 <= inject_Z 1000)%Q)
    by (vm_compute; discriminate).
  assert (H4 : (cacheService.set this (Some "x") (Some (JStr "v")) 1000
                  (healthy ∅)).1 = Return true) by (vm_compute; reflexivity).
  exact (conj H1 (conj H0 (conj H2 (conj Hage (conj Hnow (conj Hlater (conj H3
           (conj H4
              (proj2 (set_then_cleanup_keeps this "x" (JStr "v") 1000 8000
                        (1 # 8) ∅ H1 H0 H2 Hage Hnow Hlater H3 H4)))))))))).
Defined.

Lemma post_root_rejects_invalid_witness :
  let this := {| maxSize := 2 |} in
  let st := {| rows := ∅; failures := [Some {| message := "SQLITE_BUSY" |}] |} in
  (truthy (Some EmptyString) = None ∨ Some (JNum 1) = None)
  ∧ cacheRouter.post_root this (Some EmptyString) (Some (JNum 1)) 7 st
    = (Return (cacheRouter.Json 400
         (cacheRouter.Failure "Validation Error" "Key and value are required")),
       st).
Proof.
  intros this st.
  assert (H1 : truthy (Some EmptyString) = None ∨ Some (JNum 1) = None)
    by (left; reflexivity).
  exact (conj H1
           (post_root_rejects_invalid this (Some EmptyString) (Some (JNum 1)) 7 st H1)).
Defined.

Lemma post_root_replies_witness :
  let this := {| maxSize := 1 |} in
  let t : gmap string Row := {[ "a" := {| rawValue := "1"; timestamp := 5 |} ]} in
  "b" ≠ EmptyString ∧ "a" ≠ EmptyString
  ∧ (t !! "b" = None ∧ maxSize this ≤ Z.of_nat (size t))
  ∧ is_Some (t !! "a")
  ∧ cacheRouter.post_root this (Some "b") (Some (JNum 2)) 7 (healthy t)
    = (Return (cacheRouter.Json 507
         (cacheRouter.Failure "Storage Error" "Cache is full")), healthy t)
  ∧ (cacheRouter.post_root this (Some "a") (Some (JNum 2)) 7 (healthy t)).1
    = Return (cacheRouter.Json 201
        (cacheRouter.Success (Some "Stored successfully")
                             (Some (cacheRouter.DataKey "a")))).
Proof.
  intros this t.
  assert (H1 : "b" ≠ EmptyString) by discriminate.
  assert (H2 : "a" ≠ EmptyString) by discriminate.
  assert (H3 : t !! "b" = None ∧ maxSize this ≤ Z.of_nat (size t))
    by (split; [reflexivity | vm_compute; discriminate]).
  assert (H4 : is_Some (t !! "a")) by (eexists; reflexivity).
  pose proof (proj1 (post_root_replies this "b" (JNum 2) 7 t H1) H3) as Hb.
  pose proof (proj2 (post_root_replies this "a" (JNum 2) 7 t H2) (or_introl H4))
    as Ha.
  exact (conj H1 (conj H2 (conj H3 (conj H4 (conj Hb (f_equal fst Ha)))))).
Defined.


Lemma delete_key_replies_witness :
  let t : gmap string Row := {[ "a" := {| rawValue := "1"; timestamp := 5 |} ]} in
  "a" ≠ EmptyString ∧ "b" ≠ EmptyString ∧ is_Some (t !! "a") ∧ t !! "b" = None
  ∧ cacheRouter.delete_key (Some "a") (healthy t)
    = (Return (cacheRouter.Json 200
         (cacheRouter.Success (Some "Deleted successfully")
                              (Some (cacheRouter.DataKey "a")))),
       healthy (base.delete "a" t))
  ∧ cacheRouter.delete_key (Some "b") (healthy t)
    = (Return (cacheRouter.Json 404
         (cacheRouter.Failure "Not Found" "Key not found")), healthy t).
Proof.
  intros t.
  assert (H1 : "a" ≠ EmptyString) by discriminate.
  assert (H2 : "b" ≠ EmptyString) by discriminate.
  assert (H3 : is_Some (t !! "a")) by (eexists; reflexivity).
  assert (H4 : t !! "b" = None) by reflexivity.
  pose proof (proj1 (proj2 (delete_key_replies "a" t H1) H3)) as Ha.
  pose proof (proj2 (proj1 (delete_key_replies "b" t H2) H4)) as Hb.
  exact (conj H1 (conj H2 (conj H3 (conj H4 (conj Ha Hb))))).
Defined.

Lemma post_cleanup_invalid_age_witness :
  let st := healthy {[ "a" := {| rawValue := "1"; timestamp := 5 |} ]} in
  (-1 <= 0)%Q
  ∧ cacheRouter.post_cleanup (Some (-1)%Q) 100000 st
    = (Return (cacheRouter.Next
         {| message := "Failed to cleanup old entries: Max age must be positive" |}),
       st).
Proof.
  intros st.
  assert (H1 : (-1 <= 0)%Q) by discriminate.
  exact (conj H1 (post_cleanup_invalid_age (-1) 100000 st H1)).
Defined.

Lemma routes_pass_rejections_on_witness :
  let this := {| maxSize := 1 |} in
  let e := {| message := "SQLITE_BUSY: database is locked" |} in
  let st := {| rows := {[ "a" := {| rawValue := "1"; timestamp := 5 |} ]};
               failures := [Some e] |} in
  "a" ≠ EmptyString ∧ (0 < 1)%Q ∧ failures st = [Some e]
  ∧ (cacheRouter.get_key (Some "a") st).1
    = Return (cacheRouter.Next
        {| message := "Failed to get cache value: SQLITE_BUSY: database is locked" |}).
Proof.
  intros this e st.
  assert (H1 : "a" ≠ EmptyString) by discriminate.
  assert (H2 : (0 < 1)%Q) by reflexivity.
  assert (H3 : failures st = [Some e]) by reflexivity.
  destruct (routes_pass_rejections_on this "a" JNull 1 7 st e [] H1 H2 H3)
    as (Hget & _).
  exact (conj H1 (conj H2 (conj H3 Hget))).
Defined.
